(** * A shallow embedding of the blockchain core

    The Go packages [block], [proof] and [database] are embedded one module or
    section each.  Unsigned machine integers are integers of [Z] with the
    wrap-around written out, Go strings are byte strings ([string]), the
    account map is a [gmap], and a runtime panic is an explicit outcome. *)

From Stdlib Require Import ZArith Lia List Ascii String Sorting.Permutation.
From Stdlib Require Import Structures.OrderedTypeEx.
From stdpp Require Import base option list gmap strings fin_maps sorting pretty.

Local Open Scope Z_scope.

(** ** Machine integers *)

Definition wrap16 (z : Z) : Z := z mod 2 ^ 16.
Definition wrap64 (z : Z) : Z := z mod 2 ^ 64.

Definition add16 (a b : Z) : Z := wrap16 (a + b).
Definition add64 (a b : Z) : Z := wrap64 (a + b).
Definition sub64 (a b : Z) : Z := wrap64 (a - b).
Definition mul64 (a b : Z) : Z := wrap64 (a * b).

(** [int64(x)] for an unsigned 64-bit [x]: the two's complement reading. *)
Definition toInt64 (z : Z) : Z :=
  let w := wrap64 z in if w <? 2 ^ 63 then w else w - 2 ^ 64.

Definition is_u64 (z : Z) : Prop := 0 <= z < 2 ^ 64.

(** ** Outcomes of Go code that can panic or loop *)

Inductive outcome (A : Type) : Type :=
| Returns (a : A)
| Panics
| Diverges.
Arguments Returns {A} a.
Arguments Panics {A}.
Arguments Diverges {A}.

Definition obind {A B} (x : outcome A) (k : A -> outcome B) : outcome B :=
  match x with
  | Returns a => k a
  | Panics => Panics
  | Diverges => Diverges
  end.

(** ** Go string slicing *)

Definition strlen (s : string) : Z := Z.of_nat (String.length s).

(** [s[:n]]: a slice bound above the length is a runtime panic. *)
Definition slice_to (s : string) (n : Z) : outcome string :=
  if (0 <=? n) && (n <=? strlen s)
  then Returns (substring 0 (Z.to_nat n) s)
  else Panics.

(** 66-character hash strings: the prefix 0x and 64 copies of one digit. *)
Definition hex66 (c : ascii) : string :=
  String "0" (String "x" (string_of_list_ascii (repeat c 64))).

(** ** Package account *)

Module account.

(** Modelled from the spec: the account package is not among the sources;
    an account identifier is an opaque, comparable and orderable value, here
    a string as the account strings of the genesis file are. *)
Abbreviation AccountID := string (only parsing).

(** Modelled from the spec: the type [Account] of the missing account
    package; an account carries its identifier, a nonce and a balance, both
    unsigned 64-bit. *)
Record Account : Type := mkAccount {
  ID : AccountID;
  Nonce : Z;
  Balance : Z
}.

(** The zero value [Account{}], what a map read of an absent key yields. *)
Definition zero : Account := {| ID := ""; Nonce := 0; Balance := 0 |}.

(** Modelled from the spec: [New(id, balance)] of the missing account
    package is the account of that identifier with that balance and
    nonce 0. *)
Definition New (id : AccountID) (balance : Z) : Account :=
  {| ID := id; Nonce := 0; Balance := balance |}.

Definition withBalance (a : Account) (v : Z) : Account :=
  {| ID := ID a; Nonce := Nonce a; Balance := v |}.

Definition withNonce (a : Account) (v : Z) : Account :=
  {| ID := ID a; Nonce := v; Balance := Balance a |}.

(** Modelled from the spec: [ByAccount.Less] of the missing account package
    orders accounts by their identifier, in Go's bytewise order on
    strings. *)
Definition Less (a b : Account) : bool := String.ltb (ID a) (ID b).

End account.

(** ** Package transaction *)

Module transaction.

(** The fields of [BlockTx] that the core reads. *)
Record BlockTx : Type := mkBlockTx {
  FromID : account.AccountID;
  ToID : account.AccountID;
  Nonce : Z;
  Value : Z;
  Tip : Z;
  GasPrice : Z;
  GasUnits : Z
}.

End transaction.

(** ** Package signature *)

Module signature.

(** [signature.Hash(value any) string]: one hash function per type of value
    it is applied to.  The function itself is not among the sources; it is
    taken as a parameter, deterministic because it is a function. *)
Class Hasher (A : Type) := Hash : A -> string.

(** Modelled from the spec: the zero-hash sentinel has the format of a hash,
    0x and 64 hex digits, all of them zero. *)
Definition ZeroHash : string := hex66 "0".

End signature.

(** ** Package merkle *)

Module merkle.

(** The commitment builder, by its interface: [NewTree] fails with a message
    or yields a tree, [RootHex] is the tree's root digest. *)
Class Ops (A T : Type) := {
  NewTree : list A -> T + string;
  RootHex : T -> string
}.

End merkle.

(** ** Package time, as far as block validation uses it *)

Module time.

(** Modelled from Go's standard library: [time.Unix(sec, 0)] stores
    [sec + unixToInternal] in a signed 64-bit field, and [Before] compares
    these fields when no monotonic clock reading is attached. *)
Definition unixToInternal : Z := 62135596800.

Record Time : Type := mkTime { ext : Z }.

Definition Unix (sec : Z) : Time := {| ext := toInt64 (sec + unixToInternal) |}.

Definition Before (t u : Time) : bool := ext t <? ext u.

End time.

(** ** Package block *)

Module block.

Record BlockHeader : Type := mkBlockHeader {
  Number : Z;
  PrevBlockHash : string;
  TimeStamp : Z;
  BeneficiaryID : account.AccountID;
  Difficulty : Z;
  MiningReward : Z;
  StateRoot : string;
  TransRoot : string;
  Nonce : Z
}.

Definition withNonce (h : BlockHeader) (n : Z) : BlockHeader :=
  {| Number := Number h; PrevBlockHash := PrevBlockHash h;
     TimeStamp := TimeStamp h; BeneficiaryID := BeneficiaryID h;
     Difficulty := Difficulty h; MiningReward := MiningReward h;
     StateRoot := StateRoot h; TransRoot := TransRoot h; Nonce := n |}.

Definition zeroHeader : BlockHeader :=
  {| Number := 0; PrevBlockHash := ""; TimeStamp := 0; BeneficiaryID := "";
     Difficulty := 0; MiningReward := 0; StateRoot := ""; TransRoot := "";
     Nonce := 0 |}.

(** A block: its header and a pointer to the merkle tree of its
    transactions ([None] is the nil pointer). *)
Record Block (T : Type) : Type := mkBlock {
  Header : BlockHeader;
  MerkleTree : option T
}.
Arguments mkBlock {T} _ _.
Arguments Header {T} _.
Arguments MerkleTree {T} _.

(** The zero value [Block{}]. *)
Definition zero {T : Type} : Block T :=
  {| Header := zeroHeader; MerkleTree := None |}.

(** The errors of [ValidateBlock], with the values their messages print. *)
Inductive error : Type :=
| ErrChainForked
| ErrDifficulty (parent blk : Z)
| ErrNotNextNumber (got exp : Z)
| ErrParentHash (got exp : string)
| ErrTimestamp (parentTime blockTime : time.Time).

Section with_hash.
Context {T : Type} `{!signature.Hasher BlockHeader}.
Context `{!merkle.Ops transaction.BlockTx T}.

(** func New(blockHeader BlockHeader, trans []transaction.BlockTx) (Block, error) *)
Definition New (blockHeader : BlockHeader) (trans : list transaction.BlockTx)
  : Block T * option string :=
  match merkle.NewTree trans with
  | inr err => (zero, Some err)
  | inl tree => ({| Header := blockHeader; MerkleTree := Some tree |}, None)
  end.

(** func (b Block) Hash() string *)
Definition Hash (b : Block T) : string :=
  if Number (Header b) =? 0 then signature.ZeroHash
  else signature.Hash (Header b).

(** func (b Block) ValidateBlock(previousBlock Block, stateRoot string) error *)
Definition ValidateBlock (b previousBlock : Block T) (stateRoot : string)
  : option error :=
  let nextNumber := add64 (Number (Header previousBlock)) 1 in
  if add64 nextNumber 2 <=? Number (Header b) then Some ErrChainForked
  else if Difficulty (Header b) <? Difficulty (Header previousBlock) then
    Some (ErrDifficulty (Difficulty (Header previousBlock))
                        (Difficulty (Header b)))
  else if negb (Number (Header b) =? nextNumber) then
    Some (ErrNotNextNumber (Number (Header b)) nextNumber)
  else if negb (String.eqb (PrevBlockHash (Header b)) (Hash previousBlock)) then
    Some (ErrParentHash (PrevBlockHash (Header b)) (Hash previousBlock))
  else if 0 <? TimeStamp (Header previousBlock) then
    let parentTime := time.Unix (toInt64 (TimeStamp (Header previousBlock))) in
    let blockTime := time.Unix (toInt64 (TimeStamp (Header b))) in
    if time.Before blockTime parentTime then
      Some (ErrTimestamp parentTime blockTime)
    else None
  else None.

End with_hash.

End block.

(** ** Package context, as far as mining uses it *)

Module context.

Inductive error : Type := Canceled | DeadlineExceeded.

(** A context, by what [ctx.Err()] answers during the n-th attempt of the
    mining loop (attempt 0 is the time before the loop). *)
Definition Context : Type := nat -> option error.

(** A context that is never cancelled, and one cancelled from the start. *)
Definition Background : Context := fun _ => None.
Definition Cancelled : Context := fun _ => Some Canceled.

End context.

(** ** Package proof *)

Module proof.

Import block.

Record POWArgs (T : Type) : Type := mkPOWArgs {
  BeneficiaryID : account.AccountID;
  Difficulty : Z;
  MiningReward : Z;
  PrevBlock : Block T;
  StateRoot : string;
  Trans : list transaction.BlockTx
}.
Arguments mkPOWArgs {T} _ _ _ _ _ _.
Arguments BeneficiaryID {T} _.
Arguments Difficulty {T} _.
Arguments MiningReward {T} _.
Arguments PrevBlock {T} _.
Arguments StateRoot {T} _.
Arguments Trans {T} _.

(** What the mining call reads from its surroundings: the clock
    ([time.Now().UTC().UnixMilli()]), the random source ([None] when
    [rand.Int] fails) and the context. *)
Record World : Type := mkWorld {
  now : Z;
  random : option Z;
  ctx : context.Context
}.

(** The errors [POW] can return. *)
Inductive error : Type :=
| ErrMerkle (msg : string)
| ErrContext (e : context.error).

Definition matchConst : string := "0x00000000000000000".

(** func isHashSolved(difficulty uint16, hash string) bool *)
Definition isHashSolved (difficulty : Z) (hash : string) : outcome bool :=
  if negb (strlen hash =? 66) then Returns false
  else
    let difficulty := add16 difficulty 2 in
    obind (slice_to hash difficulty) (fun l =>
    obind (slice_to matchConst difficulty) (fun r =>
    Returns (String.eqb l r))).

Section with_hash.
Context {T : Type} `{!signature.Hasher BlockHeader}.
Context `{!merkle.Ops transaction.BlockTx T}.

Definition setNonce (b : Block T) (n : Z) : Block T :=
  {| Header := withNonce (Header b) n; MerkleTree := MerkleTree b |}.

(** The loop of [performPOW] on its local block [b]; the result carries the
    error the function returns and the local block as the loop leaves it. *)
Fixpoint mine (fuel : nat) (c : context.Context) (attempts : nat) (b : Block T)
  : outcome (option context.error * Block T) :=
  match fuel with
  | O => Diverges
  | S fuel' =>
    let attempts := S attempts in
    match c attempts with
    | Some e => Returns (Some e, b)
    | None =>
      let hash := Hash b in
      obind (isHashSolved (block.Difficulty (Header b)) hash) (fun solved =>
        if negb solved then
          mine fuel' c attempts (setNonce b (add64 (Nonce (Header b)) 1))
        else Returns (None, b))
    end
  end.

(** The body of [performPOW], on the copy of the block that the call
    receives. *)
Definition performPOW_local (fuel : nat) (w : World) (b : Block T)
  : outcome (option context.error * Block T) :=
  match random w with
  | None => Returns (ctx w O, b)
  | Some n => mine fuel (ctx w) O (setNonce b (wrap64 n))
  end.

(** func performPOW(ctx context.Context, b block.Block) error

    The block is passed by value: the caller gets the error only. *)
Definition performPOW (fuel : nat) (w : World) (b : Block T)
  : outcome (option context.error) :=
  obind (performPOW_local fuel w b) (fun r => Returns (fst r)).

(** func POW(ctx context.Context, args POWArgs) (block.Block, error) *)
Definition POW (fuel : nat) (w : World) (args : POWArgs T)
  : outcome (Block T * option error) :=
  let prevBlockHash :=
    if 0 <? Number (Header (PrevBlock args)) then Hash (PrevBlock args)
    else signature.ZeroHash in
  match merkle.NewTree (Trans args) with
  | inr err => Returns (zero, Some (ErrMerkle err))
  | inl tree =>
    let b :=
      {| Header :=
           {| Number := add64 (Number (Header (PrevBlock args))) 1;
              PrevBlockHash := prevBlockHash;
              TimeStamp := wrap64 (now w);
              block.BeneficiaryID := BeneficiaryID args;
              block.Difficulty := Difficulty args;
              block.MiningReward := MiningReward args;
              block.StateRoot := StateRoot args;
              TransRoot := merkle.RootHex tree;
              Nonce := 0 |};
         MerkleTree := Some tree |} in
    obind (performPOW fuel w b) (fun err =>
      match err with
      | Some e => Returns (zero, Some (ErrContext e))
      | None => Returns (b, None)
      end)
  end.

End with_hash.

End proof.

(** ** Package sort, as far as the state hash uses it *)

Module sort.

Section insertion.
Context {A : Type} (less : A -> A -> bool).

(** Modelled from Go's standard library: the inner loop of [insertionSort].
    The element [x] is swapped leftwards while it is less than its left
    neighbour; [before] is the part of the slice to its left, nearest
    element first. *)
Fixpoint sink (x : A) (before : list A) : list A :=
  match before with
  | [] => [x]
  | y :: rest => if less x y then y :: sink x rest else x :: y :: rest
  end.

(** Modelled from Go's standard library: [insertionSort], which is all that
    [sort.Sort] runs on a short slice (of at most 12 elements since Go 1.19,
    of at most 6 before). *)
Definition insertionSort (l : list A) : list A :=
  reverse (fold_left (fun before x => sink x before) l []).

(** What every run of [sort.Sort] guarantees: the elements are kept and no
    element is less than its predecessor. *)
Definition sorts (f : list A -> list A) : Prop :=
  forall l, f l ≡ₚ l /\ Sorted (fun a b => less b a = false) (f l).

End insertion.

End sort.

(** ** Package genesis *)

Module genesis.

(** Modelled from the spec: of the genesis file the ledger reads the
    balances, a map from account strings to initial balances. *)
Record Genesis : Type := mkGenesis {
  Balances : gmap string Z
}.

End genesis.

(** ** Package database *)

Module database.

Import account.

Record Database (T : Type) : Type := mkDatabase {
  genesis : genesis.Genesis;
  latestBlock : block.Block T;
  accounts : gmap string Account
}.
Arguments mkDatabase {T} _ _ _.
Arguments genesis {T} _.
Arguments latestBlock {T} _.
Arguments accounts {T} _.

(** The errors of the ledger, with the values their messages print. *)
Inductive error : Type :=
| ErrAccountID (msg : string)
| ErrNotExists
| ErrNonce (got exp : Z)
| ErrFunds (bal needed : Z).

(** A [range] over a Go map visits every entry once, in an order the
    language leaves open: the order is an argument of the functions that
    range, and any arrangement of the entries is a possible one. *)
Definition ranges {V : Type} (m : gmap string V) (order : list (string * V))
  : Prop :=
  order ≡ₚ map_to_list m.

Section with_env.
Context {T : Type} `{!signature.Hasher (list Account)}.

(** [acc.ToAccountID]: the identifier an account string parses to, or the
    message of the parse error. *)
Variable ToAccountID : string -> AccountID + string.

(** [sort.Sort(acc.ByAccount(accounts))]. *)
Variable sortByAccount : list Account -> list Account.

(** The loop shared by [New] and [Reset]: the accounts seeded so far and the
    error that stopped the loop, if any. *)
Fixpoint seed (order : list (string * Z)) (accts : gmap string Account)
  : gmap string Account * option error :=
  match order with
  | [] => (accts, None)
  | (accountStr, balance) :: rest =>
    match ToAccountID accountStr with
    | inr err => (accts, Some (ErrAccountID err))
    | inl accountID => seed rest (<[accountID := account.New accountID balance]> accts)
    end
  end.

(** func New(genesis genesis.Genesis): a new database, or an error

    [order] is the order in which the range over [genesis.Balances] yields
    the entries. *)
Definition New (g : genesis.Genesis) (order : list (string * Z))
  : Database T + error :=
  match seed order ∅ with
  | (_, Some err) => inr err
  | (accts, None) =>
    inl {| genesis := g; latestBlock := block.zero; accounts := accts |}
  end.

(** func (db *Database) Reset() error

    [order] is the order in which the range over [db.genesis.Balances]
    yields the entries; on an error the accounts seeded so far stay. *)
Definition Reset (db : Database T) (order : list (string * Z))
  : Database T * option error :=
  let r := seed order ∅ in
  ({| genesis := genesis db; latestBlock := block.zero; accounts := fst r |},
   snd r).

(** func (db *Database) Remove(accountID acc.AccountID) *)
Definition Remove (db : Database T) (accountID : AccountID) : Database T :=
  {| genesis := genesis db; latestBlock := latestBlock db;
     accounts := delete accountID (accounts db) |}.

(** func (db *Database) Query(accountID acc.AccountID) (acc.Account, error) *)
Definition Query (db : Database T) (accountID : AccountID)
  : Account * option error :=
  match accounts db !! accountID with
  | None => (account.zero, Some ErrNotExists)
  | Some a => (a, None)
  end.

(** func (db *Database) Copy() map[acc.AccountID]acc.Account *)
Definition Copy (db : Database T) : gmap string Account := accounts db.

(** func (db *Database) HashState() string

    [order] is the order in which the range over [db.accounts] yields the
    entries. *)
Definition HashState (db : Database T) (order : list (string * Account))
  : string :=
  let accounts := snd <$> order in
  signature.Hash (sortByAccount accounts).

(** The values [HashState] can return on a ledger. *)
Definition HashState_returns (db : Database T) (h : string) : Prop :=
  exists order, ranges (accounts db) order /\ HashState db order = h.

(** func (db *Database) ApplyMiningReward(b block.Block) *)
Definition ApplyMiningReward (db : Database T) (b : block.Block T)
  : Database T :=
  let id := block.BeneficiaryID (block.Header b) in
  let a := default account.zero (accounts db !! id) in
  let a := withBalance a (add64 (Balance a) (block.MiningReward (block.Header b))) in
  {| genesis := genesis db; latestBlock := latestBlock db;
     accounts := <[id := a]> (accounts db) |}.

Definition setAccounts (db : Database T) (m : gmap string Account)
  : Database T :=
  {| genesis := genesis db; latestBlock := latestBlock db; accounts := m |}.

(** func (db *Database) ApplyTransaction(b block.Block, tx transaction.BlockTx) error *)
Definition ApplyTransaction (db : Database T) (b : block.Block T)
  (tx : transaction.BlockTx) : Database T * option error :=
  let fromID := transaction.FromID tx in
  let toID := transaction.ToID tx in
  let bnfcID := block.BeneficiaryID (block.Header b) in
  let from := default (account.New fromID 0) (accounts db !! fromID) in
  let to := default (account.New toID 0) (accounts db !! toID) in
  let bnfc := default (account.New bnfcID 0) (accounts db !! bnfcID) in
  let gasFee := mul64 (transaction.GasPrice tx) (transaction.GasUnits tx) in
  let gasFee := if Balance from <? gasFee then Balance from else gasFee in
  let from := withBalance from (sub64 (Balance from) gasFee) in
  let bnfc := withBalance bnfc (add64 (Balance bnfc) gasFee) in
  let m := <[bnfcID := bnfc]> (<[fromID := from]> (accounts db)) in
  if negb (transaction.Nonce tx =? add64 (Nonce from) 1) then
    (setAccounts db m,
     Some (ErrNonce (transaction.Nonce tx) (add64 (Nonce from) 1)))
  else
    let needed := add64 (transaction.Value tx) (transaction.Tip tx) in
    if (Balance from =? 0) || (Balance from <? needed) then
      (setAccounts db m, Some (ErrFunds (Balance from) needed))
    else
      let from := withBalance from (sub64 (Balance from) (transaction.Value tx)) in
      let to := withBalance to (add64 (Balance to) (transaction.Value tx)) in
      let from := withBalance from (sub64 (Balance from) (transaction.Tip tx)) in
      let bnfc := withBalance bnfc (add64 (Balance bnfc) (transaction.Tip tx)) in
      let from := withNonce from (transaction.Nonce tx) in
      let m := <[bnfcID := bnfc]> (<[toID := to]> (<[fromID := from]> m)) in
      (setAccounts db m, None).

(** func (db *Database) UpdateLatestBlock(b block.Block) *)
Definition UpdateLatestBlock (db : Database T) (b : block.Block T)
  : Database T :=
  {| genesis := genesis db; latestBlock := b; accounts := accounts db |}.

(** func (db *Database) LatestBlock() block.Block *)
Definition LatestBlock (db : Database T) : block.Block T := latestBlock db.

End with_env.

(** The sum of all balances of a ledger, as an integer. *)
Definition total (m : gmap string Account) : Z :=
  map_fold (fun _ a s => Balance a + s) 0 m.

End database.

(** ** Stand-ins for the external packages, for evaluating the code *)

Module example.

(** A merkle tree stand-in: the list of its leaves; an empty list is refused
    and every tree has the same root digest. *)
#[export] Instance listTree : merkle.Ops transaction.BlockTx (list transaction.BlockTx) :=
  {| merkle.NewTree := fun l =>
       match l with [] => inr "empty list" | _ => inl l end;
     merkle.RootHex := fun _ => hex66 "a" |}.

(** A header hash stand-in: the hash has no zero digit unless the nonce
    is 3 modulo 4, where it is all zeros. *)
Definition headerHash : signature.Hasher block.BlockHeader :=
  fun h => if block.Nonce h mod 4 =? 3 then hex66 "0" else hex66 "f".

Definition tx1 : transaction.BlockTx :=
  {| transaction.FromID := "A"; transaction.ToID := "B";
     transaction.Nonce := 1; transaction.Value := 30; transaction.Tip := 5;
     transaction.GasPrice := 1; transaction.GasUnits := 2 |}.

Definition genesisBlock : block.Block (list transaction.BlockTx) := block.zero.

Definition args1 : proof.POWArgs (list transaction.BlockTx) :=
  {| proof.BeneficiaryID := "M"; proof.Difficulty := 1;
     proof.MiningReward := 700; proof.PrevBlock := genesisBlock;
     proof.StateRoot := hex66 "b"; proof.Trans := [tx1] |}.

Definition world1 : proof.World :=
  {| proof.now := 1700000000000; proof.random := Some 1;
     proof.ctx := context.Background |}.

Definition header (number : Z) (prev : string) (ts difficulty : Z)
  : block.BlockHeader :=
  {| block.Number := number; block.PrevBlockHash := prev;
     block.TimeStamp := ts; block.BeneficiaryID := "M";
     block.Difficulty := difficulty; block.MiningReward := 700;
     block.StateRoot := hex66 "b"; block.TransRoot := hex66 "a";
     block.Nonce := 3 |}.

Definition blk (number : Z) (prev : string) (ts difficulty : Z)
  : block.Block (list transaction.BlockTx) :=
  {| block.Header := header number prev ts difficulty;
     block.MerkleTree := Some [tx1] |}.

(** A parent, number 7 at time 100 and difficulty 2; under [headerHash] its
    hash is all zeros. *)
Definition parent : block.Block (list transaction.BlockTx) :=
  blk 7 (hex66 "f") 100 2.

(** A ledger seeded with one account, A with balance 100. *)
Definition genesis1 : genesis.Genesis :=
  {| genesis.Balances := {[ "A" := 100 ]} |}.

Definition db1 : database.Database (list transaction.BlockTx) :=
  {| database.genesis := genesis1; database.latestBlock := block.zero;
     database.accounts := {[ "A" := account.New "A" 100 ]} |}.

(** Block 1 with the miner M as beneficiary, and the same block with the
    sender A of [tx1] as beneficiary. *)
Definition blockM : block.Block (list transaction.BlockTx) :=
  {| block.Header :=
       {| block.Number := 1; block.PrevBlockHash := signature.ZeroHash;
          block.TimeStamp := 100; block.BeneficiaryID := "M";
          block.Difficulty := 1; block.MiningReward := 700;
          block.StateRoot := hex66 "b"; block.TransRoot := hex66 "a";
          block.Nonce := 3 |};
     block.MerkleTree := Some [tx1] |}.

Definition blockA : block.Block (list transaction.BlockTx) :=
  {| block.Header :=
       {| block.Number := 1; block.PrevBlockHash := signature.ZeroHash;
          block.TimeStamp := 100; block.BeneficiaryID := "A";
          block.Difficulty := 1; block.MiningReward := 700;
          block.StateRoot := hex66 "b"; block.TransRoot := hex66 "a";
          block.Nonce := 3 |};
     block.MerkleTree := Some [tx1] |}.

(** [tx1] with a nonce that the ledger does not expect, and with a value
    beyond the sender's funds. *)
Definition txBadNonce : transaction.BlockTx :=
  {| transaction.FromID := "A"; transaction.ToID := "B";
     transaction.Nonce := 5; transaction.Value := 30; transaction.Tip := 5;
     transaction.GasPrice := 1; transaction.GasUnits := 2 |}.

Definition txTooMuch : transaction.BlockTx :=
  {| transaction.FromID := "A"; transaction.ToID := "B";
     transaction.Nonce := 1; transaction.Value := 1000; transaction.Tip := 5;
     transaction.GasPrice := 1; transaction.GasUnits := 2 |}.

(** [tx1] sent by A to itself. *)
Definition txSelf : transaction.BlockTx :=
  {| transaction.FromID := "A"; transaction.ToID := "A";
     transaction.Nonce := 1; transaction.Value := 30; transaction.Tip := 5;
     transaction.GasPrice := 1; transaction.GasUnits := 2 |}.

(** An account-list hash stand-in that keeps what it hashes: identifier,
    nonce and balance of each account, in the order of the list. *)
Definition accountsHash : signature.Hasher (list account.Account) :=
  fun l =>
    String.concat ";"
      (map (fun a => account.ID a +:+ ":" +:+ pretty (account.Nonce a)
                       +:+ ":" +:+ pretty (account.Balance a)) l).

(** An account-string parser stand-in: every string is an identifier. *)
Definition anyAccountID : string -> account.AccountID + string := inl.

(** The ledger of an empty genesis, and that ledger after the mining rewards
    of one block of M and two blocks of A. *)
Definition genesis0 : genesis.Genesis := {| genesis.Balances := ∅ |}.

Definition db0 : database.Database (list transaction.BlockTx) :=
  {| database.genesis := genesis0; database.latestBlock := block.zero;
     database.accounts := ∅ |}.

Definition rewarded : database.Database (list transaction.BlockTx) :=
  database.ApplyMiningReward
    (database.ApplyMiningReward (database.ApplyMiningReward db0 blockM) blockA)
    blockA.

(** Genesis data with two accounts. *)
Definition genesis2 : genesis.Genesis :=
  {| genesis.Balances := {[ "A" := 100; "B" := 50 ]} |}.

(** Mining arguments at difficulty 18, a world whose random source fails,
    and a world whose context is cancelled at the second attempt. *)
Definition args18 : proof.POWArgs (list transaction.BlockTx) :=
  {| proof.BeneficiaryID := "M"; proof.Difficulty := 18;
     proof.MiningReward := 700; proof.PrevBlock := genesisBlock;
     proof.StateRoot := hex66 "b"; proof.Trans := [tx1] |}.

Definition worldNoRandom : proof.World :=
  {| proof.now := 1700000000000; proof.random := None;
     proof.ctx := context.Background |}.

Definition worldCancelled2 : proof.World :=
  {| proof.now := 1700000000000; proof.random := Some 1;
     proof.ctx := fun attempt =>
       if Nat.leb 2 attempt then Some context.DeadlineExceeded else None |}.

(** An account-string parser stand-in that refuses the empty string, and
    genesis data with an entry that it refuses. *)
Definition nonemptyAccountID (s : string) : account.AccountID + string :=
  if String.eqb s "" then inr "empty account string" else inl s.

Definition genesisBad : genesis.Genesis :=
  {| genesis.Balances := {[ "A" := 100; "" := 5 ]} |}.

(** The ledger of [genesis2]. *)
Definition db2 : database.Database (list transaction.BlockTx) :=
  {| database.genesis := genesis2; database.latestBlock := block.zero;
     database.accounts :=
       {[ "A" := account.New "A" 100; "B" := account.New "B" 50 ]} |}.

End example.

(** ** Predicates of the statements *)

(** The first [n] characters of [h] are all the digit zero. *)
Definition all_zero_prefix (n : nat) (h : string) : Prop :=
  forall i, (i < n)%nat -> String.get i h = Some "0"%char.

(** The first [d + 2] characters of [h] are 0x and then [d] zero digits. *)
Definition zero_x_prefix (d : nat) (h : string) : Prop :=
  String.get 0 h = Some "0"%char /\ String.get 1 h = Some "x"%char /\
  forall i, (2 <= i < d + 2)%nat -> String.get i h = Some "0"%char.

Section block_conditions.

Import block.
Context {T : Type} `{!signature.Hasher BlockHeader}.

(** The failure conditions of block validation, on the block [b] and its
    candidate parent [p]; numbers are unsigned 64-bit. *)
Definition forked (b p : Block T) : Prop :=
  add64 (Number (Header p)) 3 <= Number (Header b).


Definition out_of_sequence (b p : Block T) : Prop :=
  Number (Header b) <> add64 (Number (Header p)) 1.





(** Two headers agree on every field. *)
Definition same_fields (h1 h2 : BlockHeader) : Prop :=
  Number h1 = Number h2 /\ PrevBlockHash h1 = PrevBlockHash h2 /\
  TimeStamp h1 = TimeStamp h2 /\ BeneficiaryID h1 = BeneficiaryID h2 /\
  Difficulty h1 = Difficulty h2 /\ MiningReward h1 = MiningReward h2 /\
  StateRoot h1 = StateRoot h2 /\ TransRoot h1 = TransRoot h2 /\
  Nonce h1 = Nonce h2.

End block_conditions.

Section ledger_conditions.

Import account.

(** The balance and the nonce that a ledger holds for an identifier; an
    absent account counts as balance 0 and nonce 0. *)
Definition balanceOf (m : gmap string Account) (id : AccountID) : Z :=
  from_option Balance 0 (m !! id).

Definition nonceOf (m : gmap string Account) (id : AccountID) : Z :=
  from_option Nonce 0 (m !! id).

(** Balances and nonces of a ledger, and the fields of a transaction, are
    unsigned 64-bit values. *)
Definition wf_ledger (m : gmap string Account) : Prop :=
  forall id a, m !! id = Some a -> is_u64 (Balance a) /\ is_u64 (Nonce a).

Definition wf_tx (tx : transaction.BlockTx) : Prop :=
  is_u64 (transaction.Nonce tx) /\ is_u64 (transaction.Value tx) /\
  is_u64 (transaction.Tip tx) /\ is_u64 (transaction.GasPrice tx) /\
  is_u64 (transaction.GasUnits tx).

(** The gas fee of a transaction, clamped to the sender's balance. *)
Definition clampedGasFee (m : gmap string Account) (tx : transaction.BlockTx)
  : Z :=
  Z.min (mul64 (transaction.GasPrice tx) (transaction.GasUnits tx))
        (balanceOf m (transaction.FromID tx)).

(** The sender, the receiver and the beneficiary are three accounts. *)
Definition distinct3 (fromID toID bnfcID : AccountID) : Prop :=
  fromID <> toID /\ fromID <> bnfcID /\ toID <> bnfcID.

(** None of the additions that the call performs on balances and amounts
    exceeds the unsigned 64-bit range: the credit of the gas fee, the sum of
    value and tip and, when the transaction passes its checks, the credits
    of the value and of the tip. *)
Definition no_overflow (m : gmap string Account) (bnfcID : AccountID)
  (tx : transaction.BlockTx) : Prop :=
  let fromID := transaction.FromID tx in
  let fee := clampedGasFee m tx in
  balanceOf m bnfcID + fee < 2 ^ 64 /\
  transaction.Value tx + transaction.Tip tx < 2 ^ 64 /\
  (transaction.Nonce tx = add64 (nonceOf m fromID) 1 ->
   transaction.Value tx + transaction.Tip tx <= balanceOf m fromID - fee ->
   balanceOf m (transaction.ToID tx) + transaction.Value tx < 2 ^ 64 /\
   balanceOf m bnfcID + fee + transaction.Tip tx < 2 ^ 64).

(** Every account of the ledger is stored under its own identifier. *)
Definition keyed (m : gmap string Account) : Prop :=
  forall id a, m !! id = Some a -> ID a = id.

End ledger_conditions.

Section ledger_stages.

Import account database.
Context {T : Type}.

Implicit Types (db : Database T) (b : block.Block T) (tx : transaction.BlockTx).

(** The accounts after the gas fee has been moved, as the call stores them:
    the sender's entry first, the beneficiary's entry over it. *)
Definition afterGas db b tx : gmap string Account :=
  let m := accounts db in
  let fromID := transaction.FromID tx in
  let bnfcID := block.BeneficiaryID (block.Header b) in
  let fee := clampedGasFee m tx in
  let from := default (account.New fromID 0) (m !! fromID) in
  let bnfc := default (account.New bnfcID 0) (m !! bnfcID) in
  <[bnfcID := withBalance bnfc (add64 (Balance bnfc) fee)]>
    (<[fromID := withBalance from (sub64 (Balance from) fee)]> m).

(** The accounts after a transaction that passed its checks. *)
Definition afterTransfer db b tx : gmap string Account :=
  let m := accounts db in
  let fromID := transaction.FromID tx in
  let toID := transaction.ToID tx in
  let bnfcID := block.BeneficiaryID (block.Header b) in
  let fee := clampedGasFee m tx in
  let from := default (account.New fromID 0) (m !! fromID) in
  let to := default (account.New toID 0) (m !! toID) in
  let bnfc := default (account.New bnfcID 0) (m !! bnfcID) in
  let from' :=
    {| ID := ID from; Nonce := transaction.Nonce tx;
       Balance := sub64 (sub64 (sub64 (Balance from) fee)
                               (transaction.Value tx)) (transaction.Tip tx) |} in
  let to' := withBalance to (add64 (Balance to) (transaction.Value tx)) in
  let bnfc' :=
    withBalance bnfc (add64 (add64 (Balance bnfc) fee) (transaction.Tip tx)) in
  <[bnfcID := bnfc']> (<[toID := to']> (<[fromID := from']> (afterGas db b tx))).

End ledger_stages.

Section mining_candidates.

Import block.
Context {T : Type}.

(** The block with its nonce incremented, and the i-th block that the mining
    loop tries when it starts from [b]. *)
Definition bump (b : Block T) : Block T :=
  proof.setNonce b (add64 (Nonce (Header b)) 1).

Definition candidate (b : Block T) (i : nat) : Block T := Nat.iter i bump b.

End mining_candidates.

Section mining_assembly.

Import block proof.
Context {T : Type} `{!signature.Hasher BlockHeader}.
Context `{!merkle.Ops transaction.BlockTx T}.

(** The block that [POW] assembles from its arguments, the clock and the
    tree of the transactions, before it mines. *)
Definition assembled (w : World) (args : POWArgs T) (tree : T) : Block T :=
  {| Header :=
       {| Number := add64 (Number (Header (PrevBlock args))) 1;
          PrevBlockHash :=
            if 0 <? Number (Header (PrevBlock args)) then Hash (PrevBlock args)
            else signature.ZeroHash;
          TimeStamp := wrap64 (now w);
          block.BeneficiaryID := BeneficiaryID args;
          block.Difficulty := Difficulty args;
          block.MiningReward := MiningReward args;
          block.StateRoot := StateRoot args;
          TransRoot := merkle.RootHex tree;
          Nonce := 0 |};
     MerkleTree := Some tree |}.

End mining_assembly.

(** The sum of the balances of genesis data. *)
Definition supply (g : genesis.Genesis) : Z :=
  map_fold (fun _ bal s => bal + s) 0 (genesis.Balances g).

(** * Properties *)

(** ** The difficulty test *)

Section difficulty_test.

Import proof.

Lemma substring_prefix_eq (n : nat) (s1 s2 : string) :
  substring 0 n s1 = substring 0 n s2 <->
  forall i, (i < n)%nat -> String.get i s1 = String.get i s2.
Proof.
  split.
  - intros E i Hi.
    rewrite <- (Nat.add_0_r i).
    rewrite <- (substring_correct1 s1 0 n i Hi), <- (substring_correct1 s2 0 n i Hi).
    now rewrite E.
  - intros E. apply get_correct. intros i.
    destruct (lt_dec i n) as [Hi | Hi].
    + rewrite !substring_correct1 by assumption. rewrite Nat.add_0_r. auto.
    + rewrite !substring_correct2 by lia. reflexivity.
Qed.

Lemma get_matchConst (i : nat) :
  (i < 19)%nat ->
  String.get i matchConst = Some (if Nat.eqb i 1 then "x" else "0")%char.
Proof.
  intros Hi. do 19 (destruct i as [| i]; [reflexivity |]). lia.
Qed.

Lemma matchConst_prefix (d : nat) (h : string) :
  (d <= 17)%nat ->
  (forall i, (i < d + 2)%nat -> String.get i h = String.get i matchConst) <->
  zero_x_prefix d h.
Proof.
  intros Hd. unfold zero_x_prefix. split.
  - intros E. repeat split.
    + rewrite E by lia. reflexivity.
    + rewrite E by lia. reflexivity.
    + intros i Hi. rewrite E, get_matchConst by lia.
      destruct (Nat.eqb_spec i 1); [lia | reflexivity].
  - intros (H0 & H1 & H2) i Hi.
    rewrite get_matchConst by lia.
    destruct i as [| [| i]]; simpl Nat.eqb; try assumption.
    apply H2. lia.
Qed.

Lemma isHashSolved_in_range (d : Z) (hash : string) :
  0 <= d <= 17 -> strlen hash = 66 ->
  isHashSolved d hash =
  Returns (String.eqb (substring 0 (Z.to_nat (d + 2)) hash)
                      (substring 0 (Z.to_nat (d + 2)) matchConst)).
Proof.
  intros Hd Hlen. unfold isHashSolved, add16, wrap16.
  rewrite Hlen. simpl negb. cbv iota.
  rewrite Z.mod_small by lia.
  unfold slice_to. rewrite Hlen.
  replace (strlen matchConst) with 19 by reflexivity.
  destruct (Z.leb_spec 0 (d + 2)); [| lia].
  destruct (Z.leb_spec (d + 2) 66); [| lia].
  destruct (Z.leb_spec (d + 2) 19); [| lia].
  reflexivity.
Qed.

Lemma isHashSolved_wrong_length (d : Z) (hash : string) :
  strlen hash <> 66 -> isHashSolved d hash = Returns false.
Proof.
  intros Hlen. unfold isHashSolved.
  destruct (Z.eqb_spec (strlen hash) 66); [contradiction | reflexivity].
Qed.

End difficulty_test.

Section difficulty_claims.

Import proof.

(** C2, as stated, fails: at difficulty 0 the 66-character hash 0xff...f is
    accepted although its first 0 + 2 characters are not all the digit
    zero (the second one is the letter x). *)
Lemma isHashSolved_not_all_zero :
  ~ (forall (d : Z) (hash : string), 0 <= d <= 17 ->
       (strlen hash <> 66 -> isHashSolved d hash = Returns false) /\
       (strlen hash = 66 ->
          (isHashSolved d hash = Returns true <->
           all_zero_prefix (Z.to_nat (d + 2)) hash))).
Proof.
  intros H.
  destruct (H 0 (hex66 "f") ltac:(lia)) as [_ H66].
  specialize (H66 eq_refl). destruct H66 as [Hacc _].
  specialize (Hacc eq_refl 1%nat ltac:(simpl; lia)).
  discriminate Hacc.
Qed.

(** C2, amended: for every difficulty d in [0,17], a hash whose length is not
    66 is rejected as unsolved, and a 66-character hash is accepted as solved
    if and only if its first d + 2 characters are 0x followed by d zero
    digits. *)
Theorem isHashSolved_zero_x_prefix (d : Z) (hash : string) :
  0 <= d <= 17 ->
  (strlen hash <> 66 -> isHashSolved d hash = Returns false) /\
  (strlen hash = 66 ->
     (exists b, isHashSolved d hash = Returns b) /\
     (isHashSolved d hash = Returns true <->
      zero_x_prefix (Z.to_nat d) hash)).
Proof.
  intros Hd. split; [apply isHashSolved_wrong_length |].
  intros Hlen. rewrite (isHashSolved_in_range d hash Hd Hlen).
  split; [eexists; reflexivity |].
  rewrite <- matchConst_prefix by lia.
  replace (Z.to_nat d + 2)%nat with (Z.to_nat (d + 2)) by lia.
  rewrite <- substring_prefix_eq, <- String.eqb_eq.
  split; [intros [= E]; exact E | intros E; now rewrite E].
Qed.

Lemma isHashSolved_zero_x_prefix_witness :
  0 <= 3 <= 17 /\
  (strlen (hex66 "0") = 66 ->
     (exists b, isHashSolved 3 (hex66 "0") = Returns b) /\
     (isHashSolved 3 (hex66 "0") = Returns true <->
      zero_x_prefix (Z.to_nat 3) (hex66 "0"))).
Proof.
  split; [lia |].
  apply (isHashSolved_zero_x_prefix 3 (hex66 "0")). lia.
Defined.




End difficulty_claims.

(** ** Blocks: hashing and validation *)

Section block_claims.

Import block.
Context {T : Type} `{!signature.Hasher BlockHeader}.


Lemma same_fields_eq (h1 h2 : BlockHeader) : same_fields h1 h2 -> h1 = h2.
Proof.
  destruct h1, h2. unfold same_fields. simpl.
  intros (-> & -> & -> & -> & -> & -> & -> & -> & ->). reflexivity.
Qed.

(** C5: the hash of a block whose number is 0 is the zero hash, whatever
    its other header fields and its tree; the hash of any other block is the
    hash of its header, so that two such blocks whose headers agree on every
    field have the same hash. *)
Theorem Hash_genesis_or_header (b : Block T) :
  (Number (Header b) = 0 -> Hash b = signature.ZeroHash) /\
  (Number (Header b) <> 0 -> Hash b = signature.Hash (Header b)) /\
  (forall b' : Block T,
     Number (Header b) <> 0 -> same_fields (Header b) (Header b') ->
     Hash b = Hash b').
Proof.
  unfold Hash. repeat split.
  - intros ->. reflexivity.
  - intros Hn. destruct (Z.eqb_spec (Number (Header b)) 0); [contradiction | reflexivity].
  - intros b' Hn Hsame. apply same_fields_eq in Hsame. now rewrite Hsame.
Qed.



End block_claims.

Section block_plain_reading.

Import block.
Context {T : Type} `{!signature.Hasher BlockHeader}.

(** Away from the end of the unsigned range the fork and sequence conditions
    are those of the integers. *)
Lemma forked_plain (b p : Block T) :
  is_u64 (Number (Header p)) -> Number (Header p) + 3 < 2 ^ 64 ->
  (forked b p <-> Number (Header p) + 3 <= Number (Header b)).
Proof.
  intros Hp Hlt. unfold forked, add64, wrap64, is_u64 in *.
  rewrite Z.mod_small by lia. reflexivity.
Qed.

Lemma out_of_sequence_plain (b p : Block T) :
  is_u64 (Number (Header p)) -> Number (Header p) + 1 < 2 ^ 64 ->
  (out_of_sequence b p <-> Number (Header b) <> Number (Header p) + 1).
Proof.
  intros Hp Hlt. unfold out_of_sequence, add64, wrap64, is_u64 in *.
  rewrite Z.mod_small by lia. reflexivity.
Qed.

Lemma Unix_small (ts : Z) :
  0 <= ts < 2 ^ 63 - time.unixToInternal ->
  time.ext (time.Unix (toInt64 ts)) = ts + time.unixToInternal.
Proof.
  unfold time.unixToInternal. intros Hts.
  unfold time.Unix, time.ext, toInt64, wrap64, time.unixToInternal.
  rewrite (Z.mod_small ts) by lia.
  destruct (Z.ltb_spec ts (2 ^ 63)); [| lia].
  rewrite Z.mod_small by lia.
  destruct (Z.ltb_spec (ts + 62135596800) (2 ^ 63)); [reflexivity | lia].
Qed.



End block_plain_reading.

Section block_witnesses.

Import block example.

#[local] Existing Instance headerHash.


Lemma Hash_genesis_or_header_witness :
  Hash (blk 0 (hex66 "c") 5 9) = signature.ZeroHash /\
  Hash (blk 7 (hex66 "c") 5 9) = signature.Hash (header 7 (hex66 "c") 5 9) /\
  Hash (blk 7 (hex66 "c") 5 9) =
  Hash (mkBlock (header 7 (hex66 "c") 5 9) None
          : Block (list transaction.BlockTx)).
Proof.
  split; [| split].
  - apply (proj1 (Hash_genesis_or_header (blk 0 (hex66 "c") 5 9))).
    reflexivity.
  - apply (proj1 (proj2 (Hash_genesis_or_header (blk 7 (hex66 "c") 5 9)))).
    discriminate.
  - apply (proj2 (proj2 (Hash_genesis_or_header (blk 7 (hex66 "c") 5 9)))).
    + discriminate.
    + repeat split.
Defined.



End block_witnesses.

(** ** Mining *)

Section mining.

Import block proof.
Context {T : Type} `{!signature.Hasher BlockHeader}.
Context `{!merkle.Ops transaction.BlockTx T}.

(** When the loop ends without an error, its local block passes the
    difficulty test. *)
Lemma mine_local_solved (fuel : nat) (c : context.Context) (attempts : nat)
  (b b' : Block T) :
  mine fuel c attempts b = Returns (None, b') ->
  isHashSolved (block.Difficulty (Header b')) (Hash b') = Returns true.
Proof.
  revert attempts b. induction fuel as [| fuel IH]; intros attempts b; simpl.
  - discriminate.
  - destruct (c (S attempts)); [discriminate |].
    destruct (isHashSolved _ (Hash b)) as [[|] | |] eqn:Hs; simpl;
      try discriminate.
    + intros [= <-]. exact Hs.
    + apply IH.
Qed.

(** The block that [POW] returns with a nil error is the block it assembled
    before mining: the nonce that the loop finds stays in the copy that
    [performPOW] received. *)
Lemma POW_success_nonce_zero (fuel : nat) (w : World) (args : POWArgs T)
  (b : Block T) :
  POW fuel w args = Returns (b, None) ->
  Nonce (Header b) = 0.
Proof.
  unfold POW. destruct (merkle.NewTree (Trans args)); [| discriminate].
  destruct (performPOW fuel w _) as [[e |] | |]; simpl; try discriminate.
  intros [= <-]. reflexivity.
Qed.

End mining.

Section mining_evaluation.

Import block proof example.

#[local] Existing Instance headerHash.

(** C1 on the code: mining on top of the genesis block at difficulty 1, from
    the random start 1, returns without error a block with nonce 0 whose
    hash fails the difficulty test, while the copy inside [performPOW]
    reached nonce 3 and passes it. *)
Theorem POW_returns_unsolved_block :
  exists b b' : Block (list transaction.BlockTx),
    POW 3 world1 args1 = Returns (b, None) /\
    Nonce (Header b) = 0 /\
    isHashSolved (Difficulty args1) (Hash b) = Returns false /\
    performPOW_local 3 world1 b = Returns (None, b') /\
    Nonce (Header b') = 3 /\
    isHashSolved (Difficulty args1) (Hash b') = Returns true.
Proof.
  eexists. eexists.
  split; [vm_compute; reflexivity |].
  repeat apply conj; vm_compute; reflexivity.
Qed.

(** A context cancelled from the start makes [POW] return the cancellation
    error and the zero block. *)
Example POW_cancelled :
  POW 3 {| now := 5; random := Some 1; ctx := context.Cancelled |} args1 =
  Returns (block.zero, Some (ErrContext context.Canceled)).
Proof. reflexivity. Qed.

End mining_evaluation.

(** ** The ledger: totals *)

Section ledger_totals.

Import account database.

Lemma total_empty : total ∅ = 0.
Proof. unfold total. apply map_fold_empty. Qed.

Lemma total_insert_fresh (m : gmap string Account) (id : string) (a : Account) :
  m !! id = None -> total (<[id := a]> m) = Balance a + total m.
Proof.
  intros Hid. unfold total.
  rewrite map_fold_insert_L; [reflexivity | | assumption].
  intros. lia.
Qed.

Lemma total_insert (m : gmap string Account) (id : string) (a : Account) :
  total (<[id := a]> m) = total m - balanceOf m id + Balance a.
Proof.
  unfold balanceOf. destruct (m !! id) as [a0 |] eqn:Hid; simpl.
  - rewrite <- (insert_delete_eq m id a).
    rewrite total_insert_fresh by apply lookup_delete_eq.
    rewrite <- (insert_delete_id m id a0 Hid) at 2.
    rewrite total_insert_fresh by apply lookup_delete_eq.
    lia.
  - rewrite total_insert_fresh by assumption. lia.
Qed.

Lemma balanceOf_insert (m : gmap string Account) (id id' : string) (a : Account) :
  balanceOf (<[id := a]> m) id' =
  if decide (id = id') then Balance a else balanceOf m id'.
Proof.
  unfold balanceOf. rewrite lookup_insert. destruct (decide (id = id')); reflexivity.
Qed.

Lemma nonceOf_insert (m : gmap string Account) (id id' : string) (a : Account) :
  nonceOf (<[id := a]> m) id' =
  if decide (id = id') then Nonce a else nonceOf m id'.
Proof.
  unfold nonceOf. rewrite lookup_insert. destruct (decide (id = id')); reflexivity.
Qed.

Lemma Balance_default (m : gmap string Account) (id : string) :
  Balance (default (account.New id 0) (m !! id)) = balanceOf m id.
Proof. unfold balanceOf. destruct (m !! id); reflexivity. Qed.

Lemma Nonce_default (m : gmap string Account) (id : string) :
  Nonce (default (account.New id 0) (m !! id)) = nonceOf m id.
Proof. unfold nonceOf. destruct (m !! id); reflexivity. Qed.

Lemma balanceOf_u64 (m : gmap string Account) (id : string) :
  wf_ledger m -> is_u64 (balanceOf m id).
Proof.
  intros Hwf. unfold balanceOf.
  destruct (m !! id) as [a |] eqn:Hid; simpl.
  - apply (Hwf id a Hid).
  - unfold is_u64. lia.
Qed.

Lemma clampedGasFee_range (m : gmap string Account) (tx : transaction.BlockTx) :
  wf_ledger m ->
  0 <= clampedGasFee m tx <= balanceOf m (transaction.FromID tx).
Proof.
  intros Hwf. unfold clampedGasFee, mul64, wrap64.
  pose proof (balanceOf_u64 m (transaction.FromID tx) Hwf) as Hb.
  pose proof (Z.mod_pos_bound
    (transaction.GasPrice tx * transaction.GasUnits tx) (2 ^ 64) ltac:(lia)).
  unfold is_u64 in Hb. lia.
Qed.

End ledger_totals.

(** ** The ledger: applying a transaction *)

Section apply_transaction.

Import account database.
Context {T : Type}.

Implicit Types (db : Database T) (b : block.Block T) (tx : transaction.BlockTx).

Lemma gasFee_clamped (g bal : Z) : (if bal <? g then bal else g) = Z.min g bal.
Proof. destruct (Z.ltb_spec bal g); lia. Qed.

(** The call, by its three exits. *)
Lemma ApplyTransaction_exits db b tx :
  let m := accounts db in
  let fromID := transaction.FromID tx in
  let fee := clampedGasFee m tx in
  let expected := add64 (nonceOf m fromID) 1 in
  let left := sub64 (balanceOf m fromID) fee in
  let needed := add64 (transaction.Value tx) (transaction.Tip tx) in
  ApplyTransaction db b tx =
  if negb (transaction.Nonce tx =? expected) then
    (setAccounts db (afterGas db b tx),
     Some (ErrNonce (transaction.Nonce tx) expected))
  else if (left =? 0) || (left <? needed) then
    (setAccounts db (afterGas db b tx), Some (ErrFunds left needed))
  else (setAccounts db (afterTransfer db b tx), None).
Proof.
  cbv zeta. unfold ApplyTransaction, afterTransfer, afterGas, clampedGasFee.
  cbv zeta. rewrite gasFee_clamped.
  rewrite <- !Balance_default, <- !Nonce_default.
  reflexivity.
Qed.

End apply_transaction.

Section apply_transaction_distinct.

Import account database.
Context {T : Type}.

Implicit Types (db : Database T) (b : block.Block T) (tx : transaction.BlockTx).

#[local] Ltac lookups :=
  unfold balanceOf, nonceOf;
  repeat first
    [ rewrite lookup_insert_eq
    | rewrite lookup_insert_ne by congruence ];
  simpl; try reflexivity.

(** X25: when the sender is not the beneficiary, a call that fails has moved
    the clamped gas fee from the sender to the beneficiary and nothing
    else. *)
Lemma ApplyTransaction_failure_distinct db b tx (e : error) :
  let m := accounts db in
  let fromID := transaction.FromID tx in
  let bnfcID := block.BeneficiaryID (block.Header b) in
  let m' := accounts (fst (ApplyTransaction db b tx)) in
  fromID <> bnfcID ->
  snd (ApplyTransaction db b tx) = Some e ->
  balanceOf m' fromID = sub64 (balanceOf m fromID) (clampedGasFee m tx) /\
  nonceOf m' fromID = nonceOf m fromID /\
  balanceOf m' bnfcID = add64 (balanceOf m bnfcID) (clampedGasFee m tx) /\
  nonceOf m' bnfcID = nonceOf m bnfcID /\
  forall id, id <> fromID -> id <> bnfcID -> m' !! id = m !! id.
Proof.
  cbv zeta. intros Hne. rewrite ApplyTransaction_exits. cbv zeta.
  destruct (negb _); [| destruct (_ || _)]; simpl; try discriminate;
    intros _; unfold afterGas; cbv zeta;
    rewrite <- !Balance_default, <- !Nonce_default;
    (repeat apply conj; [lookups .. | intros id H1 H2; lookups]).
Qed.

(** X24: when sender, receiver and beneficiary are three accounts, a call
    that succeeds leaves the sender with its balance less fee, value and tip and
    with the nonce of the transaction, the receiver with the value added and
    the beneficiary with fee and tip added. *)
Lemma ApplyTransaction_success_distinct db b tx :
  let m := accounts db in
  let fromID := transaction.FromID tx in
  let toID := transaction.ToID tx in
  let bnfcID := block.BeneficiaryID (block.Header b) in
  let fee := clampedGasFee m tx in
  let m' := accounts (fst (ApplyTransaction db b tx)) in
  distinct3 fromID toID bnfcID ->
  snd (ApplyTransaction db b tx) = None ->
  balanceOf m' fromID =
    sub64 (sub64 (sub64 (balanceOf m fromID) fee) (transaction.Value tx))
          (transaction.Tip tx) /\
  nonceOf m' fromID = transaction.Nonce tx /\
  balanceOf m' toID = add64 (balanceOf m toID) (transaction.Value tx) /\
  balanceOf m' bnfcID =
    add64 (add64 (balanceOf m bnfcID) fee) (transaction.Tip tx) /\
  forall id, id <> fromID -> id <> toID -> id <> bnfcID -> m' !! id = m !! id.
Proof.
  cbv zeta. intros (H1 & H2 & H3). rewrite ApplyTransaction_exits. cbv zeta.
  destruct (negb _); [| destruct (_ || _)]; simpl; try discriminate.
  intros _. unfold afterTransfer, afterGas. cbv zeta.
  rewrite <- !Balance_default, <- !Nonce_default.
  repeat apply conj; [lookups .. | intros id H4 H5 H6; lookups].
Qed.

End apply_transaction_distinct.

Section apply_transaction_total.

Import account database.
Context {T : Type}.

Implicit Types (db : Database T) (b : block.Block T) (tx : transaction.BlockTx).

#[local] Ltac no_wrap :=
  unfold add64, sub64, wrap64, is_u64 in *;
  repeat match goal with
         | |- context [?x mod ?y] => rewrite (Z.mod_small x y) by lia
         end;
  try lia.

Lemma total_afterGas db b tx :
  let m := accounts db in
  let bnfcID := block.BeneficiaryID (block.Header b) in
  wf_ledger m ->
  transaction.FromID tx <> bnfcID ->
  balanceOf m bnfcID + clampedGasFee m tx < 2 ^ 64 ->
  total (afterGas db b tx) = total m.
Proof.
  cbv zeta. intros Hwf Hne Hov. unfold afterGas. cbv zeta.
  rewrite !total_insert, balanceOf_insert.
  destruct (decide _); [congruence |].
  cbn [Balance withBalance]. rewrite !Balance_default.
  pose proof (clampedGasFee_range _ tx Hwf).
  pose proof (balanceOf_u64 _ (transaction.FromID tx) Hwf).
  pose proof (balanceOf_u64 _ (block.BeneficiaryID (block.Header b)) Hwf).
  no_wrap.
Qed.

Lemma total_afterTransfer db b tx :
  let m := accounts db in
  let fromID := transaction.FromID tx in
  let toID := transaction.ToID tx in
  let bnfcID := block.BeneficiaryID (block.Header b) in
  let fee := clampedGasFee m tx in
  wf_ledger m -> wf_tx tx ->
  distinct3 fromID toID bnfcID ->
  transaction.Value tx + transaction.Tip tx <= balanceOf m fromID - fee ->
  balanceOf m toID + transaction.Value tx < 2 ^ 64 ->
  balanceOf m bnfcID + fee + transaction.Tip tx < 2 ^ 64 ->
  total (afterTransfer db b tx) = total m.
Proof.
  cbv zeta. intros Hwf (_ & Hv & Ht & _) (H1 & H2 & H3) Hleft Hto Hbn.
  pose proof (clampedGasFee_range _ tx Hwf).
  pose proof (balanceOf_u64 _ (transaction.FromID tx) Hwf).
  pose proof (balanceOf_u64 _ (transaction.ToID tx) Hwf).
  pose proof (balanceOf_u64 _ (block.BeneficiaryID (block.Header b)) Hwf).
  unfold afterTransfer. cbv zeta.
  rewrite !total_insert, !balanceOf_insert.
  rewrite total_afterGas by (assumption || (unfold is_u64 in *; lia)).
  unfold afterGas. cbv zeta. rewrite !balanceOf_insert.
  repeat destruct (decide _); try congruence.
  cbn [Balance withBalance]. rewrite !Balance_default.
  no_wrap.
Qed.

End apply_transaction_total.

Section apply_transaction_claims.

Import account database example.

Lemma wf_ledger_db1 : wf_ledger (accounts db1).
Proof.
  intros id a Hid. unfold db1 in Hid. cbn [accounts] in Hid.
  apply lookup_singleton_Some in Hid as [<- <-].
  unfold is_u64. simpl. lia.
Qed.

Lemma wf_tx_tx1 : wf_tx tx1.
Proof. unfold wf_tx, is_u64. simpl. lia. Qed.

(** C10: when sender, receiver and beneficiary are three accounts and no
    addition overflows, the sum of all balances is the same after the call as
    before it, whether the call succeeds or fails; and there is a call with
    the sender as beneficiary, without overflow, that changes the sum. *)
Theorem ApplyTransaction_total :
  (forall (T : Type) (db : Database T) (b : block.Block T)
          (tx : transaction.BlockTx),
     let bnfcID := block.BeneficiaryID (block.Header b) in
     wf_ledger (accounts db) -> wf_tx tx ->
     distinct3 (transaction.FromID tx) (transaction.ToID tx) bnfcID ->
     no_overflow (accounts db) bnfcID tx ->
     total (accounts (fst (ApplyTransaction db b tx))) = total (accounts db)) /\
  (exists (db : Database (list transaction.BlockTx))
          (b : block.Block (list transaction.BlockTx))
          (tx : transaction.BlockTx),
     let bnfcID := block.BeneficiaryID (block.Header b) in
     wf_ledger (accounts db) /\ wf_tx tx /\
     transaction.FromID tx = bnfcID /\
     no_overflow (accounts db) bnfcID tx /\
     total (accounts (fst (ApplyTransaction db b tx))) <> total (accounts db)).
Proof.
  split.
  - intros T db b tx bnfcID Hwf Htx Hd (Hfee & Hsum & Hok).
    pose proof Hd as (H1 & H2 & H3).
    pose proof Htx as (_ & Hv & Ht & _).
    pose proof (clampedGasFee_range _ tx Hwf) as Hrange.
    pose proof (balanceOf_u64 _ (transaction.FromID tx) Hwf) as Hfrom.
    rewrite ApplyTransaction_exits. cbv zeta.
    destruct (Z.eqb_spec (transaction.Nonce tx)
                (add64 (nonceOf (accounts db) (transaction.FromID tx)) 1))
      as [Hnonce | Hnonce]; simpl negb; cbv iota.
    + destruct (_ || _) eqn:Hfunds; simpl.
      * now apply total_afterGas.
      * apply orb_false_iff in Hfunds as [_ Hlt%Z.ltb_ge].
        assert (transaction.Value tx + transaction.Tip tx
                <= balanceOf (accounts db) (transaction.FromID tx)
                   - clampedGasFee (accounts db) tx) as Hleft.
        { revert Hlt. unfold add64, sub64, wrap64, is_u64 in *.
          rewrite !Z.mod_small by lia. lia. }
        destruct (Hok Hnonce Hleft) as [Hto Hbn].
        now apply total_afterTransfer.
    + simpl. now apply total_afterGas.
  - exists db1, blockA, tx1. cbv zeta.
    split; [apply wf_ledger_db1 |].
    split; [apply wf_tx_tx1 |].
    split; [reflexivity |].
    split; [| vm_compute; discriminate].
    unfold no_overflow. vm_compute. intuition discriminate.
Qed.

Lemma ApplyTransaction_total_witness :
  total (accounts (fst (ApplyTransaction db1 blockM tx1))) = total (accounts db1).
Proof.
  apply (proj1 ApplyTransaction_total _ db1 blockM tx1).
  - apply wf_ledger_db1.
  - apply wf_tx_tx1.
  - unfold distinct3. simpl. repeat split; discriminate.
  - unfold no_overflow. vm_compute. intuition discriminate.
Defined.

End apply_transaction_claims.

(** ** Sorting accounts *)

Section insertion_sort.

Context {A : Type} (less : A -> A -> bool).
Hypothesis less_asym : forall x y, less x y = true -> less y x = false.

Lemma sink_Permutation (x : A) (l : list A) : sort.sink less x l ≡ₚ x :: l.
Proof.
  induction l as [| y l IH]; simpl; [reflexivity |].
  destruct (less x y); [| reflexivity].
  rewrite IH. apply Permutation_swap.
Qed.

Lemma sink_Sorted (x : A) (l : list A) :
  Sorted (fun a b => less a b = false) l ->
  Sorted (fun a b => less a b = false) (sort.sink less x l).
Proof.
  induction 1 as [| y l Hl IH Hhd]; simpl.
  - repeat constructor.
  - destruct (less x y) eqn:Hxy.
    + constructor; [exact IH |].
      destruct Hhd as [| z l Hyz]; simpl.
      * constructor. now apply less_asym.
      * destruct (less x z); constructor; [exact Hyz | now apply less_asym].
    + repeat constructor; assumption.
Qed.

Lemma sink_all_Permutation (l acc : list A) :
  fold_left (fun before x => sort.sink less x before) l acc ≡ₚ l ++ acc.
Proof.
  revert acc. induction l as [| x l IH]; intros acc; simpl; [reflexivity |].
  rewrite IH, sink_Permutation. symmetry. apply Permutation_middle.
Qed.

Lemma sink_all_Sorted (l acc : list A) :
  Sorted (fun a b => less a b = false) acc ->
  Sorted (fun a b => less a b = false)
         (fold_left (fun before x => sort.sink less x before) l acc).
Proof.
  revert acc. induction l as [| x l IH]; intros acc Hacc; simpl; [exact Hacc |].
  apply IH, sink_Sorted, Hacc.
Qed.

(** Insertion sort meets the contract of [sort.Sort]. *)
Lemma insertionSort_sorts : sort.sorts less (sort.insertionSort less).
Proof.
  intros l. unfold sort.insertionSort. split.
  - rewrite reverse_Permutation, sink_all_Permutation, app_nil_r. reflexivity.
  - apply (Sorted_reverse (fun a b => less a b = false)).
    apply sink_all_Sorted. constructor.
Qed.

End insertion_sort.

Section account_order.

Import account.

Lemma ltb_lt (s1 s2 : string) :
  String.ltb s1 s2 = true <-> String_as_OT.lt s1 s2.
Proof.
  rewrite <- String_as_OT.cmp_lt. unfold String.ltb, String_as_OT.cmp.
  destruct (String.compare s1 s2); split; congruence.
Qed.

Lemma ltb_asym (s1 s2 : string) :
  String.ltb s1 s2 = true -> String.ltb s2 s1 = false.
Proof.
  intros H12%ltb_lt. destruct (String.ltb s2 s1) eqn:H21; [| reflexivity].
  apply ltb_lt in H21.
  destruct (String_as_OT.lt_not_eq _ _ (String_as_OT.lt_trans _ _ _ H12 H21)).
  reflexivity.
Qed.

Lemma ltb_antisym (s1 s2 : string) :
  String.ltb s1 s2 = false -> String.ltb s2 s1 = false -> s1 = s2.
Proof.
  pose proof (String_as_OT.cmp_antisym s2 s1) as Ha.
  pose proof (String_as_OT.cmp_eq s1 s2) as He.
  unfold String.ltb. unfold String_as_OT.cmp in Ha, He. rewrite Ha.
  destruct (String.compare s1 s2); simpl; try discriminate.
  intros _ _. now apply He.
Qed.

Lemma ltb_false_trans (s1 s2 s3 : string) :
  String.ltb s2 s1 = false -> String.ltb s3 s2 = false ->
  String.ltb s3 s1 = false.
Proof.
  intros H21 H32.
  destruct (String.ltb s3 s1) eqn:H31; [| reflexivity].
  destruct (String.ltb s1 s2) eqn:H12.
  - apply ltb_lt in H31, H12.
    pose proof (String_as_OT.lt_trans _ _ _ H31 H12) as H%ltb_lt. congruence.
  - rewrite (ltb_antisym _ _ H12 H21) in H31. congruence.
Qed.

Lemma Less_asym (a b : Account) : Less a b = true -> Less b a = false.
Proof. apply ltb_asym. Qed.

Lemma not_Less_trans : Transitive (fun a b : Account => Less b a = false).
Proof. intros a b c. unfold Less. apply ltb_false_trans. Qed.

End account_order.

(** ** The ledger: the state hash *)

Section hash_state.

Import account database.
Context {T : Type} `{!signature.Hasher (list Account)}.
Variable sortByAccount : list Account -> list Account.
Hypothesis sortByAccount_sorts : sort.sorts Less sortByAccount.

Lemma keyed_values_inj (m : gmap string Account)
  (order order' : list (string * Account)) (x1 x2 : Account) :
  keyed m -> ranges m order -> ranges m order' ->
  x1 ∈ order.*2 -> x2 ∈ order'.*2 -> ID x1 = ID x2 -> x1 = x2.
Proof.
  unfold ranges. intros Hk Ho Ho' H1 H2 Hid.
  apply list_elem_of_fmap in H1 as ([k1 y1] & -> & H1).
  apply list_elem_of_fmap in H2 as ([k2 y2] & -> & H2).
  rewrite Ho in H1. rewrite Ho' in H2.
  apply elem_of_map_to_list in H1, H2. simpl in *.
  assert (k1 = k2) as -> by (rewrite <- (Hk _ _ H1), <- (Hk _ _ H2); exact Hid).
  congruence.
Qed.

(** On a ledger whose accounts are stored under their own identifiers, the
    state hash does not depend on the order in which the map is ranged
    over, whatever sorting algorithm [sort.Sort] runs. *)
Lemma HashState_keyed (db db' : Database T) (h h' : string) :
  keyed (accounts db) ->
  accounts db = accounts db' ->
  HashState_returns sortByAccount db h ->
  HashState_returns sortByAccount db' h' ->
  h = h'.
Proof.
  intros Hk Heq (o & Ho & <-) (o' & Ho' & <-).
  rewrite <- Heq in Ho'. unfold HashState. f_equal.
  destruct (sortByAccount_sorts (o.*2)) as [Hp Hs].
  destruct (sortByAccount_sorts (o'.*2)) as [Hp' Hs'].
  pose proof not_Less_trans as Htrans.
  apply (Sorted_unique_strong (fun a b => Less b a = false)); try assumption.
  - intros x1 x2 H1 H2 H12 H21.
    rewrite Hp in H1. rewrite Hp' in H2.
    apply (keyed_values_inj (accounts db) o o'); try assumption.
    apply ltb_antisym; assumption.
  - rewrite Hp, Hp'. unfold ranges in Ho, Ho'. now rewrite Ho, Ho'.
Qed.

End hash_state.

Section keyed_ledgers.

Import account database.
Context {T : Type}.

Lemma keyed_insert (m : gmap string Account) (id : string) (a : Account) :
  keyed m -> ID a = id -> keyed (<[id := a]> m).
Proof.
  intros Hk Ha id' a'. rewrite lookup_insert_Some.
  intros [[<- <-] | [_ Hm]]; [exact Ha | exact (Hk _ _ Hm)].
Qed.

Lemma ID_default (m : gmap string Account) (id : string) :
  keyed m -> ID (default (account.New id 0) (m !! id)) = id.
Proof.
  intros Hk. destruct (m !! id) as [a |] eqn:Hid; simpl; [| reflexivity].
  exact (Hk _ _ Hid).
Qed.

(** The ledgers that [New] builds store every account under its own
    identifier ... *)
Lemma seed_keyed (ToAccountID : string -> AccountID + string)
  (order : list (string * Z)) (accts : gmap string Account) :
  keyed accts -> keyed (fst (seed ToAccountID order accts)).
Proof.
  revert accts. induction order as [| [s bal] order IH]; intros accts Hk; simpl.
  - exact Hk.
  - destruct (ToAccountID s) as [id | err]; simpl; [| exact Hk].
    apply IH, keyed_insert; [exact Hk | reflexivity].
Qed.

Lemma New_keyed (ToAccountID : string -> AccountID + string)
  (g : genesis.Genesis) (order : list (string * Z)) (db : Database T) :
  New ToAccountID g order = inl db -> keyed (accounts db).
Proof.
  unfold New. pose proof (seed_keyed ToAccountID order ∅) as Hk.
  destruct (seed ToAccountID order ∅) as [accts [err |]]; [discriminate |].
  intros [= <-]. apply Hk. intros id a. rewrite lookup_empty. discriminate.
Qed.

(** X26: ... and [ApplyTransaction] keeps it so, on success and on
    failure. *)
Lemma ApplyTransaction_keyed (db : Database T) (b : block.Block T)
  (tx : transaction.BlockTx) :
  keyed (accounts db) -> keyed (accounts (fst (ApplyTransaction db b tx))).
Proof.
  intros Hk. rewrite ApplyTransaction_exits. cbv zeta.
  assert (keyed (afterGas db b tx)) as Hgas.
  { unfold afterGas. cbv zeta.
    repeat apply keyed_insert; try exact Hk; simpl; now apply ID_default. }
  destruct (negb _); [exact Hgas |].
  destruct (_ || _); [exact Hgas |]. simpl.
  unfold afterTransfer. cbv zeta.
  repeat apply keyed_insert;
    first [exact Hgas | exact Hk | simpl; now apply ID_default].
Qed.

End keyed_ledgers.

Section hash_state_evaluation.

Import account database example.

#[local] Existing Instance accountsHash.

(** [ApplyMiningReward] stores a beneficiary that the ledger did not hold
    under the zero account, whose identifier is empty. *)
Example ApplyMiningReward_fresh :
  accounts (ApplyMiningReward db0 blockM) !! "M" =
  Some {| ID := ""; Nonce := 0; Balance := 700 |}.
Proof. reflexivity. Qed.

(** C8 on the code: the ledger of an empty genesis after the mining rewards
    of two beneficiaries holds two accounts with the empty identifier; the
    sort leaves them in the order of the range over the map, and the state
    hash of this one ledger has two values. *)
Theorem HashState_order_dependent :
  New anyAccountID genesis0 [] = inl db0 /\
  exists h1 h2,
    HashState_returns (sort.insertionSort Less) rewarded h1 /\
    HashState_returns (sort.insertionSort Less) rewarded h2 /\
    h1 <> h2.
Proof.
  split; [reflexivity |].
  assert (map_to_list (accounts rewarded) =
          [("M", {| ID := ""; Nonce := 0; Balance := 700 |});
           ("A", {| ID := ""; Nonce := 0; Balance := 1400 |})]) as Hlist
    by (vm_compute; reflexivity).
  eexists. eexists. repeat apply conj.
  - eexists. split; [| reflexivity].
    unfold ranges. rewrite Hlist. reflexivity.
  - eexists. split; [| reflexivity].
    unfold ranges. rewrite Hlist. apply Permutation_swap.
  - vm_compute. discriminate.
Qed.

End hash_state_evaluation.

(** ** The ledger: transactions whose parties coincide *)

Section apply_transaction_evaluation.

Import account database example.

(** The example of the specification, with three parties: from balance 100
    the sender A ends at 63 with nonce 1, B gains 30, the miner M gains 7,
    and the same transaction again is refused for its nonce, at the price of
    a second gas fee. *)
Example ApplyTransaction_three_parties :
  let r := ApplyTransaction db1 blockM tx1 in
  let r' := ApplyTransaction (fst r) blockM tx1 in
  snd r = None /\
  accounts (fst r) !! "A" = Some {| ID := "A"; Nonce := 1; Balance := 63 |} /\
  accounts (fst r) !! "B" = Some {| ID := "B"; Nonce := 0; Balance := 30 |} /\
  accounts (fst r) !! "M" = Some {| ID := "M"; Nonce := 0; Balance := 7 |} /\
  snd r' = Some (ErrNonce 1 2) /\
  accounts (fst r') !! "A" = Some {| ID := "A"; Nonce := 1; Balance := 61 |}.
Proof. vm_compute. repeat split. Qed.

(** C6 on the code: when the sender A of the transaction is the beneficiary
    of the block, a successful call leaves A with balance 107 instead of
    100 - 2 - 30 - 5 + 2 + 5 = 70 and with nonce 0 instead of 1, because the
    beneficiary's copy of the account is written back over the sender's; the
    same transaction is then accepted again. *)
Theorem ApplyTransaction_sender_is_beneficiary :
  let r := ApplyTransaction db1 blockA tx1 in
  let r' := ApplyTransaction (fst r) blockA tx1 in
  transaction.FromID tx1 = block.BeneficiaryID (block.Header blockA) /\
  snd r = None /\
  accounts (fst r) !! "A" = Some {| ID := "A"; Nonce := 0; Balance := 107 |} /\
  accounts (fst r) !! "B" = Some {| ID := "B"; Nonce := 0; Balance := 30 |} /\
  snd r' = None /\
  accounts (fst r') !! "A" = Some {| ID := "A"; Nonce := 0; Balance := 114 |} /\
  accounts (fst r') !! "B" = Some {| ID := "B"; Nonce := 0; Balance := 60 |}.
Proof. vm_compute. repeat split. Qed.

(** The same loss when A sends to itself: the receiver's copy is written
    back over the sender's, A ends with 130 and nonce 0. *)
Example ApplyTransaction_sender_is_receiver :
  let r := ApplyTransaction db1 blockM txSelf in
  snd r = None /\
  accounts (fst r) !! "A" = Some {| ID := "A"; Nonce := 0; Balance := 130 |} /\
  accounts (fst r) !! "M" = Some {| ID := "M"; Nonce := 0; Balance := 7 |}.
Proof. vm_compute. repeat split. Qed.

(** C7 on the code: when the sender A is the beneficiary of the block, a
    call that fails, for its nonce or for lack of funds, leaves A with
    balance 102: the gas fee 2 has been credited to A and the debit is
    lost. *)
Theorem ApplyTransaction_failure_sender_is_beneficiary :
  let r := ApplyTransaction db1 blockA txBadNonce in
  let r' := ApplyTransaction db1 blockA txTooMuch in
  transaction.FromID txBadNonce = block.BeneficiaryID (block.Header blockA) /\
  clampedGasFee (accounts db1) txBadNonce = 2 /\
  snd r = Some (ErrNonce 5 1) /\
  accounts (fst r) !! "A" = Some {| ID := "A"; Nonce := 0; Balance := 102 |} /\
  snd r' = Some (ErrFunds 98 1005) /\
  accounts (fst r') !! "A" = Some {| ID := "A"; Nonce := 0; Balance := 102 |}.
Proof. vm_compute. repeat split. Qed.

(** The insufficient-funds example of the specification, with three
    parties: from balance 1 the gas fee is clamped to 1, the call fails and
    the sender is left with 0. *)
Example ApplyTransaction_insufficient_funds :
  let db : Database (list transaction.BlockTx) :=
    {| genesis := genesis1; latestBlock := block.zero;
       accounts := {[ "A" := account.New "A" 1 ]} |} in
  let tx :=
    {| transaction.FromID := "A"; transaction.ToID := "B";
       transaction.Nonce := 1; transaction.Value := 10; transaction.Tip := 0;
       transaction.GasPrice := 1; transaction.GasUnits := 2 |} in
  let r := ApplyTransaction db blockM tx in
  snd r = Some (ErrFunds 0 10) /\
  accounts (fst r) !! "A" = Some {| ID := "A"; Nonce := 0; Balance := 0 |} /\
  accounts (fst r) !! "M" = Some {| ID := "M"; Nonce := 0; Balance := 1 |} /\
  accounts (fst r) !! "B" = None.
Proof. vm_compute. repeat split. Qed.

End apply_transaction_evaluation.

(** ** The ledger: construction from genesis data *)

Section genesis_ledgers.

Import account database.
Context {T : Type} `{!signature.Hasher (list Account)}.
Variable ToAccountID : string -> AccountID + string.
Variable sortByAccount : list Account -> list Account.

(** Two account strings do not parse to the same identifier. *)
Hypothesis ToAccountID_inj :
  forall s1 s2 id, ToAccountID s1 = inl id -> ToAccountID s2 = inl id -> s1 = s2.
Hypothesis sortByAccount_sorts : sort.sorts Less sortByAccount.

(** Seeding the accounts in another order of the same entries gives the same
    accounts. *)
Lemma seed_order (order order' : list (string * Z)) :
  order ≡ₚ order' ->
  forall accts : gmap string Account,
    NoDup order.*1 ->
    snd (seed ToAccountID order accts) = None ->
    seed ToAccountID order' accts = seed ToAccountID order accts.
Proof.
  induction 1 as [| [s bal] l l' Hp IH | [s1 bal1] [s2 bal2] l | l l' l'' Hp IH Hp' IH'];
    intros accts Hnd Hok.
  - reflexivity.
  - simpl in *. destruct (ToAccountID s); [| discriminate].
    apply IH; [now inversion Hnd | exact Hok].
  - simpl in *.
    destruct (ToAccountID s1) as [id1 |] eqn:H1;
      destruct (ToAccountID s2) as [id2 |] eqn:H2; try discriminate.
    rewrite insert_insert_ne; [reflexivity |].
    intros <-. pose proof (ToAccountID_inj _ _ _ H1 H2) as <-.
    inversion Hnd as [| ? ? Hin _]. apply Hin. left.
  - rewrite IH' ; [apply IH; assumption | | ].
    + now rewrite <- Hp.
    + rewrite IH; assumption.
Qed.

(** The ledger that [New] builds does not depend on the order in which the
    balances of the genesis data are ranged over ... *)
Lemma New_order (g : genesis.Genesis) (order order' : list (string * Z))
  (db : Database T) :
  ranges (genesis.Balances g) order -> ranges (genesis.Balances g) order' ->
  New ToAccountID g order = inl db ->
  New ToAccountID g order' = inl db.
Proof.
  unfold ranges, New. intros Ho Ho' Hnew.
  assert (order ≡ₚ order') as Hp by (now rewrite Ho, Ho').
  assert (NoDup order.*1) as Hnd
    by (rewrite Ho; apply NoDup_fst_map_to_list).
  destruct (seed ToAccountID order ∅) as [accts [err |]] eqn:Hseed;
    [discriminate |].
  rewrite (seed_order order order' Hp ∅ Hnd), Hseed; [exact Hnew |].
  now rewrite Hseed.
Qed.

(** ... and two ledgers built from the same genesis data have the same
    state hash. *)
Lemma HashState_genesis (g : genesis.Genesis) (order order' : list (string * Z))
  (db db' : Database T) (h h' : string) :
  ranges (genesis.Balances g) order -> ranges (genesis.Balances g) order' ->
  New ToAccountID g order = inl db ->
  New ToAccountID g order' = inl db' ->
  HashState_returns sortByAccount db h ->
  HashState_returns sortByAccount db' h' ->
  h = h'.
Proof.
  intros Ho Ho' Hdb Hdb' Hh Hh'.
  rewrite (New_order g order order' db Ho Ho' Hdb) in Hdb'.
  injection Hdb' as <-.
  apply (HashState_keyed sortByAccount sortByAccount_sorts db db);
    try assumption; [| reflexivity].
  exact (New_keyed ToAccountID g order db Hdb).
Qed.

End genesis_ledgers.

Section genesis_evaluation.

Import account database example.

#[local] Existing Instance accountsHash.

Lemma insertionSort_Less_sorts : sort.sorts Less (sort.insertionSort Less).
Proof. apply insertionSort_sorts, Less_asym. Qed.

(** The two orders of the genesis data of two accounts give one ledger and
    one state hash. *)
Example HashState_genesis2 :
  forall (db db' : Database (list transaction.BlockTx)) (h h' : string),
    New anyAccountID genesis2 [("A", 100); ("B", 50)] = inl db ->
    New anyAccountID genesis2 [("B", 50); ("A", 100)] = inl db' ->
    HashState_returns (sort.insertionSort Less) db h ->
    HashState_returns (sort.insertionSort Less) db' h' ->
    h = h'.
Proof.
  intros db db' h h'.
  assert (map_to_list (genesis.Balances genesis2) = [("A", 100); ("B", 50)])
    as Hlist by (vm_compute; reflexivity).
  apply (HashState_genesis anyAccountID (sort.insertionSort Less)).
  - intros s1 s2 id [= <-] [= <-]. reflexivity.
  - apply insertionSort_Less_sorts.
  - unfold ranges. rewrite Hlist. reflexivity.
  - unfold ranges. rewrite Hlist. apply Permutation_swap.
Qed.

End genesis_evaluation.

(** * Further properties of the code *)

(** ** Validation: what an accepted block looks like *)

Section validation_extras.

Import block.
Context {T : Type} `{!signature.Hasher BlockHeader}.

Lemma ValidateBlock_None (b p : Block T) (stateRoot : string) :
  ValidateBlock b p stateRoot = None ->
  Number (Header b) = add64 (Number (Header p)) 1 /\
  Difficulty (Header p) <= Difficulty (Header b) /\
  PrevBlockHash (Header b) = Hash p /\
  (0 < TimeStamp (Header p) ->
   time.Before (time.Unix (toInt64 (TimeStamp (Header b))))
               (time.Unix (toInt64 (TimeStamp (Header p)))) = false).
Proof.
  unfold ValidateBlock.
  destruct (Z.leb_spec (add64 (add64 (Number (Header p)) 1) 2)
                       (Number (Header b))); [discriminate |].
  destruct (Z.ltb_spec (Difficulty (Header b)) (Difficulty (Header p)));
    [discriminate |].
  destruct (Z.eqb_spec (Number (Header b)) (add64 (Number (Header p)) 1));
    simpl negb; cbv iota; [| discriminate].
  destruct (String.eqb_spec (PrevBlockHash (Header b)) (Hash p));
    simpl negb; cbv iota; [| discriminate].
  intros Hts. repeat split; try assumption.
  intros Hpos. destruct (Z.ltb_spec 0 (TimeStamp (Header p))); [| lia].
  destruct (time.Before _ _); [discriminate | reflexivity].
Qed.

(** X1: a block that validation accepts carries the number after its
    parent's (in unsigned 64-bit arithmetic), a difficulty that is not below
    the parent's and the parent's hash, and it is not earlier than a parent
    with a nonzero timestamp. *)
Theorem ValidateBlock_accepted (b p : Block T) (stateRoot : string) :
  ValidateBlock b p stateRoot = None ->
  Number (Header b) = add64 (Number (Header p)) 1 /\
  Difficulty (Header p) <= Difficulty (Header b) /\
  PrevBlockHash (Header b) = Hash p /\
  (0 < TimeStamp (Header p) ->
   time.Before (time.Unix (toInt64 (TimeStamp (Header b))))
               (time.Unix (toInt64 (TimeStamp (Header p)))) = false).
Proof. apply ValidateBlock_None. Qed.

(** X2: the first block after a parent with number 0 is accepted only with
    number 1 and the zero hash as parent hash, whatever the other header
    fields of that parent are. *)
Theorem ValidateBlock_after_genesis (b p : Block T) (stateRoot : string) :
  Number (Header p) = 0 ->
  ValidateBlock b p stateRoot = None ->
  Number (Header b) = 1 /\ PrevBlockHash (Header b) = signature.ZeroHash.
Proof.
  intros Hp Hok.
  destruct (ValidateBlock_None b p stateRoot Hok) as (Hn & _ & Hh & _).
  rewrite Hp in Hn. split; [exact Hn |].
  rewrite Hh. unfold Hash. rewrite Hp. reflexivity.
Qed.

(** X3: no block is accepted as its own successor. *)
Theorem ValidateBlock_not_self (b : Block T) (stateRoot : string) :
  is_u64 (Number (Header b)) ->
  ValidateBlock b b stateRoot <> None.
Proof.
  intros Hn Hok.
  destruct (ValidateBlock_None b b stateRoot Hok) as (Heq & _).
  revert Heq. unfold add64, wrap64, is_u64 in *.
  destruct (Z.eq_dec (Number (Header b)) (2 ^ 64 - 1)) as [-> | Hne].
  - vm_compute. discriminate.
  - rewrite Z.mod_small by lia. lia.
Qed.

(** X4: the two additions on the parent's number wrap around; a parent
    numbered 2^64 - 3 or 2^64 - 2 has no successor, every candidate is
    reported as a fork. *)
Theorem ValidateBlock_last_numbers (b p : Block T) (stateRoot : string) :
  is_u64 (Number (Header b)) ->
  Number (Header p) = 2 ^ 64 - 3 \/
  (Number (Header p) = 2 ^ 64 - 2 /\ 0 < Number (Header b)) ->
  ValidateBlock b p stateRoot = Some ErrChainForked.
Proof.
  intros Hb Hp. unfold ValidateBlock, is_u64 in *.
  destruct Hp as [-> | [-> Hpos]].
  - change (add64 (add64 (2 ^ 64 - 3) 1) 2) with 0.
    destruct (Z.leb_spec 0 (Number (Header b))); [reflexivity | lia].
  - change (add64 (add64 (2 ^ 64 - 2) 1) 2) with 1.
    destruct (Z.leb_spec 1 (Number (Header b))); [reflexivity | lia].
Qed.

End validation_extras.

Section validation_extras_witnesses.

Import block example.

#[local] Existing Instance headerHash.

Lemma ValidateBlock_accepted_witness :
  Number (Header (blk 8 (hex66 "0") 100 2)) = add64 (Number (Header parent)) 1 /\
  Difficulty (Header parent) <= Difficulty (Header (blk 8 (hex66 "0") 100 2)) /\
  PrevBlockHash (Header (blk 8 (hex66 "0") 100 2)) = Hash parent /\
  (0 < TimeStamp (Header parent) ->
   time.Before (time.Unix (toInt64 (TimeStamp (Header (blk 8 (hex66 "0") 100 2)))))
               (time.Unix (toInt64 (TimeStamp (Header parent)))) = false).
Proof.
  apply (ValidateBlock_accepted (blk 8 (hex66 "0") 100 2) parent "").
  reflexivity.
Defined.

Lemma ValidateBlock_after_genesis_witness :
  Number (Header blockM) = 1 /\
  PrevBlockHash (Header blockM) = signature.ZeroHash.
Proof.
  apply (ValidateBlock_after_genesis blockM genesisBlock "");
    reflexivity.
Defined.

Lemma ValidateBlock_not_self_witness :
  is_u64 (Number (Header parent)) /\ ValidateBlock parent parent "" <> None.
Proof.
  assert (is_u64 (Number (Header parent))) as Hn
    by (unfold is_u64; simpl; lia).
  split; [exact Hn |].
  apply (ValidateBlock_not_self parent "" Hn).
Defined.

Lemma ValidateBlock_last_numbers_witness :
  ValidateBlock (blk 5 (hex66 "0") 100 2) (blk (2 ^ 64 - 3) (hex66 "0") 100 2) ""
  = Some ErrChainForked.
Proof.
  apply (ValidateBlock_last_numbers (blk 5 (hex66 "0") 100 2)
           (blk (2 ^ 64 - 3) (hex66 "0") 100 2) "").
  - unfold is_u64. simpl. lia.
  - left. reflexivity.
Defined.

End validation_extras_witnesses.

(** ** Validation: what it does not look at *)

Section validation_blind.

Import block.
Context {T : Type} `{!signature.Hasher BlockHeader}.

(** X5: validation reads the number, the difficulty, the parent hash and the
    timestamp of the block only; two blocks that agree on these get the same
    verdict, whatever their nonces, roots, rewards, beneficiaries and trees:
    validation never tests the block's hash against its difficulty. *)
Theorem ValidateBlock_reads_four_fields (b b' p : Block T)
  (stateRoot stateRoot' : string) :
  Number (Header b) = Number (Header b') ->
  Difficulty (Header b) = Difficulty (Header b') ->
  PrevBlockHash (Header b) = PrevBlockHash (Header b') ->
  TimeStamp (Header b) = TimeStamp (Header b') ->
  ValidateBlock b p stateRoot = ValidateBlock b' p stateRoot'.
Proof.
  intros Hn Hd Hh Ht. unfold ValidateBlock.
  rewrite Hn, Hd, Hh, Ht. reflexivity.
Qed.

End validation_blind.

Section validation_blind_witness.

Import block proof example.

#[local] Existing Instance headerHash.

(** The accepted successor of [parent] with nonce 0: its hash has no zero
    digit, yet it is accepted at difficulty 2. *)
Lemma ValidateBlock_reads_four_fields_witness :
  ValidateBlock (setNonce (blk 8 (hex66 "0") 100 2) 0) parent "" = None /\
  isHashSolved 2 (Hash (setNonce (blk 8 (hex66 "0") 100 2) 0)) = Returns false.
Proof.
  split; [| reflexivity].
  rewrite (ValidateBlock_reads_four_fields
             (setNonce (blk 8 (hex66 "0") 100 2) 0)
             (blk 8 (hex66 "0") 100 2) parent "" "");
    reflexivity.
Defined.

End validation_blind_witness.

(** ** Mining: the search *)

Section mining_search.

Import block proof.
Context {T : Type} `{!signature.Hasher BlockHeader}.
Context `{!merkle.Ops transaction.BlockTx T}.

Lemma candidate_bump (b : Block T) (i : nat) :
  candidate (bump b) i = candidate b (S i).
Proof.
  unfold candidate. induction i as [| i IH]; simpl; [reflexivity |].
  now rewrite IH.
Qed.

Lemma Difficulty_candidate (b : Block T) (i : nat) :
  block.Difficulty (Header (candidate b i)) = block.Difficulty (Header b).
Proof.
  induction i as [| i IH]; simpl; [reflexivity | exact IH].
Qed.

Lemma candidate_fields (b : Block T) (i : nat) :
  MerkleTree (candidate b i) = MerkleTree b /\
  Header (candidate b i) =
    withNonce (Header b) (Nonce (Header (candidate b i))).
Proof.
  induction i as [| i [IHt IHh]]; simpl.
  - split; [reflexivity |]. now destruct b as [[]].
  - split; [exact IHt |]. rewrite IHh at 1. reflexivity.
Qed.

(** The loop over attempts that neither are cancelled nor solve. *)
Lemma mine_skip (k fuel : nat) (c : context.Context) (a : nat) (b : Block T) :
  (forall i, (i < k)%nat ->
     c (S (a + i)) = None /\
     isHashSolved (block.Difficulty (Header b)) (Hash (candidate b i))
       = Returns false) ->
  mine (k + fuel) c a b = mine fuel c (a + k) (candidate b k).
Proof.
  revert a b. induction k as [| k IH]; intros a b Hk.
  - simpl. now rewrite Nat.add_0_r.
  - destruct (Hk O ltac:(lia)) as [Hc Hs].
    rewrite Nat.add_0_r in Hc. simpl candidate in Hs.
    change (S k + fuel)%nat with (S (k + fuel)). simpl mine.
    rewrite Hc, Hs. simpl.
    fold (bump b). rewrite IH.
    + rewrite candidate_bump. f_equal. lia.
    + intros i Hi. destruct (Hk (S i) ltac:(lia)) as [Hc' Hs'].
      rewrite candidate_bump. split; [| exact Hs'].
      rewrite <- Hc'. f_equal. lia.
Qed.

Lemma mine_returns_candidate (fuel : nat) (c : context.Context) (a : nat)
  (b b' : Block T) (e : option context.error) :
  mine fuel c a b = Returns (e, b') -> exists i, b' = candidate b i.
Proof.
  revert a b. induction fuel as [| fuel IH]; intros a b; simpl.
  - discriminate.
  - destruct (c (S a)); [intros [= _ <-]; now exists O |].
    destruct (isHashSolved _ (Hash b)) as [[|] | |]; simpl; try discriminate.
    + intros [= _ <-]. now exists O.
    + intros Hm. destruct (IH _ _ Hm) as [i ->].
      exists (S i). apply candidate_bump.
Qed.

Lemma isHashSolved_out_of_range (d : Z) (hash : string) :
  18 <= d <= 65533 -> strlen hash = 66 -> isHashSolved d hash = Panics.
Proof.
  intros Hd Hlen. unfold isHashSolved, add16, wrap16.
  rewrite Hlen. simpl negb. cbv iota.
  rewrite Z.mod_small by lia.
  unfold slice_to, obind. rewrite Hlen.
  replace (strlen matchConst) with 19 by reflexivity.
  destruct (Z.leb_spec 0 (d + 2)); [| lia].
  destruct (Z.leb_spec (d + 2) 66); simpl andb; cbv iota.
  - destruct (Z.leb_spec (d + 2) 19); [lia | reflexivity].
  - reflexivity.
Qed.

(** X6: from the random start the search returns, with a nil error, the
    first block whose hash passes the difficulty test, provided the context
    is not cancelled up to that attempt; k + 1 rounds of the loop suffice. *)
Theorem performPOW_first_solution (w : World) (b : Block T) (n : Z)
  (k fuel : nat) :
  let start := setNonce b (wrap64 n) in
  random w = Some n ->
  (forall i, (i < k)%nat ->
     ctx w (S i) = None /\
     isHashSolved (block.Difficulty (Header b)) (Hash (candidate start i))
       = Returns false) ->
  ctx w (S k) = None ->
  isHashSolved (block.Difficulty (Header b)) (Hash (candidate start k))
    = Returns true ->
  performPOW_local (k + S fuel) w b = Returns (None, candidate start k).
Proof.
  cbv zeta. intros Hr Hk Hc Hs. unfold performPOW_local. rewrite Hr.
  rewrite mine_skip by exact Hk. simpl.
  rewrite Hc, Difficulty_candidate. simpl block.Difficulty.
  rewrite Hs. reflexivity.
Qed.

(** X7: when the context is cancelled at an attempt before which no block
    solved, [POW] returns the context's error and the zero block, never a
    mined one; with k = 0 this is a context cancelled from the start. *)
Theorem POW_cancelled_before_solution (w : World) (args : POWArgs T)
  (tree : T) (n : Z) (e : context.error) (k fuel : nat) :
  let start := setNonce (assembled w args tree) (wrap64 n) in
  merkle.NewTree (Trans args) = inl tree ->
  random w = Some n ->
  (forall i, (i < k)%nat ->
     ctx w (S i) = None /\
     isHashSolved (Difficulty args) (Hash (candidate start i)) = Returns false) ->
  ctx w (S k) = Some e ->
  POW (k + S fuel) w args = Returns (block.zero, Some (ErrContext e)).
Proof.
  cbv zeta. intros Ht Hr Hk Hc. unfold POW. rewrite Ht.
  fold (assembled w args tree).
  unfold performPOW, performPOW_local. rewrite Hr.
  rewrite mine_skip by exact Hk. simpl. rewrite Hc. reflexivity.
Qed.

(** X8: whatever the search returns, its local block differs from the block
    it was given in the nonce only. *)
Theorem performPOW_changes_nonce_only (fuel : nat) (w : World) (b b' : Block T)
  (e : option context.error) :
  performPOW_local fuel w b = Returns (e, b') ->
  MerkleTree b' = MerkleTree b /\
  Header b' = withNonce (Header b) (Nonce (Header b')).
Proof.
  unfold performPOW_local. destruct (random w) as [n |].
  - intros Hm. apply mine_returns_candidate in Hm as [i ->].
    destruct (candidate_fields (setNonce b (wrap64 n)) i) as [Ht Hh].
    split; [exact Ht |]. rewrite Hh. reflexivity.
  - intros [= _ <-]. split; [reflexivity |]. now destruct b as [[]].
Qed.

(** X9: when the random source fails, [performPOW] returns what the context
    reports at once; under a live context [POW] then returns the assembled
    block, nonce 0, with a nil error and without having hashed anything. *)
Theorem POW_random_failure (fuel : nat) (w : World) (args : POWArgs T)
  (tree : T) :
  merkle.NewTree (Trans args) = inl tree ->
  random w = None ->
  POW fuel w args =
  Returns (match ctx w O with
           | Some e => (block.zero, Some (ErrContext e))
           | None => (assembled w args tree, None)
           end).
Proof.
  intros Ht Hr. unfold POW. rewrite Ht. fold (assembled w args tree).
  unfold performPOW, performPOW_local. rewrite Hr. simpl.
  destruct (ctx w O); reflexivity.
Qed.

(** X10: mining at a difficulty in [18,65533] with a hash function of
    66-character hashes does not return an error: the first attempt slices
    the pattern out of range. *)
Theorem POW_panics_above_17 (fuel : nat) (w : World) (args : POWArgs T)
  (tree : T) (n : Z) :
  (forall h : BlockHeader, strlen (signature.Hash h) = 66) ->
  18 <= Difficulty args <= 65533 ->
  merkle.NewTree (Trans args) = inl tree ->
  random w = Some n ->
  ctx w 1%nat = None ->
  POW (S fuel) w args = Panics.
Proof.
  intros Hlen Hd Ht Hr Hc. unfold POW. rewrite Ht.
  fold (assembled w args tree).
  unfold performPOW, performPOW_local. rewrite Hr. simpl mine. rewrite Hc.
  simpl block.Difficulty.
  assert (forall b : Block T, strlen (Hash b) = 66) as Hlen'.
  { intros b. unfold Hash. destruct (_ =? _); [reflexivity | apply Hlen]. }
  rewrite (isHashSolved_out_of_range (Difficulty args)
             (Hash (setNonce (assembled w args tree) (wrap64 n))) Hd (Hlen' _)).
  reflexivity.
Qed.

End mining_search.

(** ** Mining: difficulty and validation of the result *)

Section mining_results.

Import block proof.
Context {T : Type} `{!signature.Hasher BlockHeader}.
Context `{!merkle.Ops transaction.BlockTx T}.

(** X11: a hash that is solved at a difficulty up to 17 is solved at every
    lower difficulty. *)
Theorem isHashSolved_monotone (d d' : Z) (hash : string) :
  0 <= d <= d' -> d' <= 17 ->
  isHashSolved d' hash = Returns true ->
  isHashSolved d hash = Returns true.
Proof.
  intros Hd Hd'.
  destruct (Z.eq_dec (strlen hash) 66) as [Hlen | Hlen].
  - rewrite !isHashSolved_in_range by (assumption || lia).
    intros [= E]. f_equal.
    apply String.eqb_eq in E. apply String.eqb_eq.
    apply substring_prefix_eq. intros i Hi.
    apply (proj1 (substring_prefix_eq (Z.to_nat (d' + 2)) hash matchConst) E).
    lia.
  - rewrite isHashSolved_wrong_length by assumption. discriminate.
Qed.

(** X12: the block that [POW] returns with a nil error is accepted by
    validation against the block it was mined on, when that block's number
    is at least 3 below the end of the unsigned range, the difficulty asked
    for is not below the parent's and the clock is not behind the parent's
    timestamp. *)
Theorem POW_block_validates (fuel : nat) (w : World) (args : POWArgs T)
  (b : Block T) (stateRoot : string) :
  let p := PrevBlock args in
  POW fuel w args = Returns (b, None) ->
  0 <= Number (Header p) -> Number (Header p) + 3 < 2 ^ 64 ->
  block.Difficulty (Header p) <= Difficulty args ->
  0 <= TimeStamp (Header p) <= now w ->
  now w < 2 ^ 63 - time.unixToInternal ->
  ValidateBlock b p stateRoot = None.
Proof.
  cbv zeta. intros Hpow Hn0 Hn Hd Hts Hnow.
  assert (exists tree, b = assembled w args tree) as [tree ->].
  { revert Hpow. unfold POW.
    destruct (merkle.NewTree (Trans args)) as [tree |]; [| discriminate].
    destruct (performPOW fuel w _) as [[e |] | |]; simpl; try discriminate.
    intros [= <-]. now exists tree. }
  unfold ValidateBlock, assembled. cbn [Header Number block.Difficulty
    PrevBlockHash TimeStamp].
  set (n := Number (Header (PrevBlock args))) in *.
  assert (add64 n 1 = n + 1) as -> by (unfold add64, wrap64; rewrite Z.mod_small; lia).
  assert (add64 (n + 1) 2 = n + 3) as ->
    by (unfold add64, wrap64; rewrite Z.mod_small; lia).
  destruct (Z.leb_spec (n + 3) (n + 1)); [lia |].
  destruct (Z.ltb_spec (Difficulty args)
              (block.Difficulty (Header (PrevBlock args)))); [lia |].
  rewrite Z.eqb_refl. simpl negb. cbv iota.
  assert ((if 0 <? n then Hash (PrevBlock args) else signature.ZeroHash)
          = Hash (PrevBlock args)) as ->.
  { destruct (Z.ltb_spec 0 n); [reflexivity |].
    unfold Hash. fold n. replace n with 0 by lia. reflexivity. }
  rewrite String.eqb_refl. simpl negb. cbv iota.
  destruct (Z.ltb_spec 0 (TimeStamp (Header (PrevBlock args)))); [| reflexivity].
  unfold time.unixToInternal in Hnow.
  unfold time.Before.
  assert (wrap64 (now w) = now w) as ->
    by (unfold wrap64; rewrite Z.mod_small; lia).
  rewrite !Unix_small by (unfold time.unixToInternal; lia).
  destruct (Z.ltb_spec (now w + time.unixToInternal)
              (TimeStamp (Header (PrevBlock args)) + time.unixToInternal));
    [lia | reflexivity].
Qed.

End mining_results.

Section mining_witnesses.

Import block proof example.

#[local] Existing Instance headerHash.

Lemma performPOW_first_solution_witness :
  performPOW_local 3 world1 blockM =
  Returns (None, candidate (setNonce blockM (wrap64 1)) 2).
Proof.
  apply (performPOW_first_solution world1 blockM 1 2 0).
  - reflexivity.
  - intros [| [| i]] Hi; [split; reflexivity .. | lia].
  - reflexivity.
  - reflexivity.
Defined.

Lemma POW_cancelled_before_solution_witness :
  POW 2 worldCancelled2 args1 =
  Returns (block.zero, Some (ErrContext context.DeadlineExceeded)).
Proof.
  apply (POW_cancelled_before_solution worldCancelled2 args1 [tx1] 1
           context.DeadlineExceeded 1 0).
  - reflexivity.
  - reflexivity.
  - intros [| i] Hi; [split; reflexivity | lia].
  - reflexivity.
Defined.

Lemma performPOW_changes_nonce_only_witness :
  MerkleTree (candidate (setNonce blockM (wrap64 1)) 2) = MerkleTree blockM /\
  Header (candidate (setNonce blockM (wrap64 1)) 2) =
    withNonce (Header blockM)
      (Nonce (Header (candidate (setNonce blockM (wrap64 1)) 2))).
Proof.
  apply (performPOW_changes_nonce_only 3 world1 blockM _ None).
  reflexivity.
Defined.

Lemma POW_random_failure_witness :
  POW 0 worldNoRandom args1 =
  Returns (assembled worldNoRandom args1 [tx1], None).
Proof.
  apply (POW_random_failure 0 worldNoRandom args1 [tx1]); reflexivity.
Defined.

Lemma POW_panics_above_17_witness : POW 1 world1 args18 = Panics.
Proof.
  apply (POW_panics_above_17 0 world1 args18 [tx1] 1).
  - intros h. unfold signature.Hash, headerHash.
    destruct (_ =? _); reflexivity.
  - simpl. lia.
  - reflexivity.
  - reflexivity.
  - reflexivity.
Defined.

Lemma isHashSolved_monotone_witness :
  isHashSolved 1 (hex66 "0") = Returns true.
Proof.
  apply (isHashSolved_monotone 1 3 (hex66 "0")); [lia | lia | reflexivity].
Defined.

Lemma POW_block_validates_witness :
  ValidateBlock (assembled world1 args1 [tx1]) (PrevBlock args1) (hex66 "b")
  = None.
Proof.
  apply (POW_block_validates 3 world1 args1 (assembled world1 args1 [tx1])
           (hex66 "b")).
  - reflexivity.
  - simpl. lia.
  - simpl. lia.
  - simpl. lia.
  - simpl. lia.
  - unfold time.unixToInternal. simpl. lia.
Defined.

End mining_witnesses.

(** ** The ledger: what [New] and [Reset] build *)

Section genesis_parse.

Import account database.
Context {T : Type}.
Variable ToAccountID : string -> AccountID + string.

Lemma seed_None (order : list (string * Z)) (accts : gmap string Account) :
  snd (seed ToAccountID order accts) = None <->
  forall s bal, (s, bal) ∈ order -> exists id, ToAccountID s = inl id.
Proof.
  revert accts. induction order as [| [s bal] order IH]; intros accts; simpl.
  - split; [| reflexivity]. intros _ s bal Hin. inversion Hin.
  - destruct (ToAccountID s) as [id | msg] eqn:Hs; simpl.
    + rewrite IH. split.
      * intros Hrest s' bal' Hin. apply elem_of_cons in Hin as [[= -> ->] | Hin];
          [eauto | eauto].
      * intros Hall s' bal' Hin. apply (Hall s' bal'). now right.
    + split; [discriminate |]. intros Hall.
      destruct (Hall s bal ltac:(left)) as [id Hid]. congruence.
Qed.

Lemma seed_parse_cases (order : list (string * Z)) :
  (forall s bal, (s, bal) ∈ order -> exists id, ToAccountID s = inl id) \/
  (exists s bal msg, (s, bal) ∈ order /\ ToAccountID s = inr msg).
Proof.
  induction order as [| [s bal] order [IH | IH]].
  - left. intros s bal Hin. inversion Hin.
  - destruct (ToAccountID s) as [id | msg] eqn:Hs.
    + left. intros s' bal' Hin.
      apply elem_of_cons in Hin as [[= -> ->] | Hin]; eauto.
    + right. exists s, bal, msg. split; [left | exact Hs].
  - right. destruct IH as (s' & bal' & msg & Hin & Hs).
    exists s', bal', msg. split; [now right | exact Hs].
Qed.

(** X13: [New] fails exactly when some account string of the genesis data
    does not parse, whatever the order of the range. *)
Theorem New_fails_iff (g : genesis.Genesis) (order : list (string * Z)) :
  ranges (genesis.Balances g) order ->
  ((exists e, New (T := T) ToAccountID g order = inr e) <->
   exists s bal msg,
     genesis.Balances g !! s = Some bal /\ ToAccountID s = inr msg).
Proof.
  unfold ranges. intros Ho. unfold New.
  pose proof (seed_None order ∅) as Hnone.
  destruct (seed ToAccountID order ∅) as [accts [err |]]; simpl in Hnone.
  - split; [intros _ | intros _; eauto].
    destruct (seed_parse_cases order) as [Hall | Hbad].
    + apply Hnone in Hall. discriminate.
    + destruct Hbad as (s & bal & msg & Hin & Hs).
      exists s, bal, msg. split; [| exact Hs].
      apply elem_of_map_to_list. now rewrite <- Ho.
  - split; [intros [e He]; discriminate |].
    intros (s & bal & msg & Hin & Hs).
    destruct (proj1 Hnone eq_refl s bal) as [id Hid]; [| congruence].
    rewrite Ho. now apply elem_of_map_to_list.
Qed.

(** X14: [Reset] succeeds exactly when [New] on the stored genesis data
    does, and then leaves the ledger that [New] builds, whatever accounts
    and latest block the ledger held before. *)
Theorem Reset_as_New (db db' : Database T) (order : list (string * Z)) :
  Reset ToAccountID db order = (db', None) <->
  New ToAccountID (genesis db) order = inl db'.
Proof.
  unfold Reset, New.
  destruct (seed ToAccountID order ∅) as [accts [err |]]; simpl.
  - split; [intros [= _] | discriminate].
  - split; [intros [= <-] | intros [= <-]]; reflexivity.
Qed.

End genesis_parse.

Section genesis_contents.

Import account database.
Context {T : Type} `{!signature.Hasher (list Account)}.
Variable ToAccountID : string -> AccountID + string.
Variable sortByAccount : list Account -> list Account.

Hypothesis ToAccountID_inj :
  forall s1 s2 id, ToAccountID s1 = inl id -> ToAccountID s2 = inl id -> s1 = s2.

(** The accounts after seeding: those of the entries, and those held before
    that no entry replaces. *)
Lemma seed_lookup (order : list (string * Z)) :
  NoDup order.*1 ->
  forall (accts m : gmap string Account) (id : string) (a : Account),
    seed ToAccountID order accts = (m, None) ->
    (m !! id = Some a <->
     (exists s bal, (s, bal) ∈ order /\ ToAccountID s = inl id /\
                    a = account.New id bal) \/
     (accts !! id = Some a /\
      forall s bal, (s, bal) ∈ order -> ToAccountID s <> inl id)).
Proof.
  induction order as [| [s bal] order IH]; intros Hnd accts m id a; simpl.
  - intros [= <-]. split.
    + intros Hm. right. split; [exact Hm |]. intros s bal Hin. inversion Hin.
    + intros [(s & bal & Hin & _) | [Hm _]]; [inversion Hin | exact Hm].
  - apply NoDup_cons in Hnd as [Hs Hnd].
    destruct (ToAccountID s) as [id0 | msg] eqn:Hid0; [| discriminate].
    intros Hseed. rewrite (IH Hnd _ _ id a Hseed). clear IH Hseed.
    assert (forall s' bal', (s', bal') ∈ order -> ToAccountID s' <> inl id0)
      as Hfresh.
    { intros s' bal' Hin Hs'.
      rewrite (ToAccountID_inj _ _ _ Hs' Hid0) in Hin.
      apply Hs. apply list_elem_of_fmap. now exists (s, bal'). }
    split.
    + intros [(s' & bal' & Hin & Hs' & ->) | [Hm Hnone]].
      * left. exists s', bal'. split; [now right | auto].
      * apply lookup_insert_Some in Hm as [[<- <-] | [Hne Hm]].
        -- left. exists s, bal. split; [left | auto].
        -- right. split; [exact Hm |].
           intros s' bal' Hin. apply elem_of_cons in Hin as [[= -> ->] | Hin];
             [congruence | eauto].
    + intros [(s' & bal' & Hin & Hs' & ->) | [Hm Hnone]].
      * apply elem_of_cons in Hin as [[= -> ->] | Hin].
        -- right. assert (id = id0) as -> by congruence.
           split; [apply lookup_insert_eq | exact Hfresh].
        -- left. eauto.
      * right. split.
        -- rewrite lookup_insert_ne; [exact Hm |].
           intros <-. apply (Hnone s bal); [left | exact Hid0].
        -- intros s' bal' Hin. apply (Hnone s' bal'). now right.
Qed.

(** X15: the ledger that [New] builds holds exactly one account for each
    entry of the genesis data, under the identifier its string parses to,
    with the entry's balance and nonce 0. *)
Theorem New_accounts (g : genesis.Genesis) (order : list (string * Z))
  (db : Database T) (id : string) (a : Account) :
  ranges (genesis.Balances g) order ->
  New ToAccountID g order = inl db ->
  (accounts db !! id = Some a <->
   exists s bal, genesis.Balances g !! s = Some bal /\
                 ToAccountID s = inl id /\ a = account.New id bal).
Proof.
  unfold ranges, New. intros Ho.
  destruct (seed ToAccountID order ∅) as [accts [err |]] eqn:Hseed;
    [discriminate |].
  intros [= <-]. simpl.
  rewrite (seed_lookup order) by
    (try exact Hseed; rewrite Ho; apply NoDup_fst_map_to_list).
  split.
  - intros [(s & bal & Hin & Hs & Ha) | [Hm _]].
    + exists s, bal. split; [| auto].
      apply elem_of_map_to_list. now rewrite <- Ho.
    + rewrite lookup_empty in Hm. discriminate.
  - intros (s & bal & Hin & Hs & Ha). left. exists s, bal.
    split; [| auto]. rewrite Ho. now apply elem_of_map_to_list.
Qed.

Lemma seed_total (order : list (string * Z)) :
  NoDup order.*1 ->
  forall accts m : gmap string Account,
    (forall s bal id, (s, bal) ∈ order -> ToAccountID s = inl id ->
                      accts !! id = None) ->
    seed ToAccountID order accts = (m, None) ->
    total m = total accts + foldr (fun e s => e.2 + s) 0 order.
Proof.
  induction order as [| [s bal] order IH]; intros Hnd accts m Hfresh; simpl.
  - intros [= <-]. lia.
  - apply NoDup_cons in Hnd as [Hs Hnd].
    destruct (ToAccountID s) as [id0 | msg] eqn:Hid0; [| discriminate].
    intros Hseed.
    assert (forall s' bal' id', (s', bal') ∈ order -> ToAccountID s' = inl id' ->
              <[id0 := account.New id0 bal]> accts !! id' = None) as Hfresh'.
    { intros s' bal' id' Hin Hs'. rewrite lookup_insert_ne.
      - apply (Hfresh s' bal'); [now right | exact Hs'].
      - intros <-. rewrite (ToAccountID_inj _ _ _ Hs' Hid0) in Hin.
        apply Hs. apply list_elem_of_fmap. now exists (s, bal'). }
    rewrite (IH Hnd _ _ Hfresh' Hseed).
    rewrite total_insert_fresh by (apply (Hfresh s bal); [left | exact Hid0]).
    simpl. lia.
Qed.

Lemma foldr_balances_Permutation (l l' : list (string * Z)) :
  l ≡ₚ l' ->
  foldr (fun e s => e.2 + s) 0 l = foldr (fun e s => e.2 + s) 0 l'.
Proof.
  induction 1; simpl; lia.
Qed.

(** X16: the balances of the ledger that [New] builds add up to the sum of
    the balances of the genesis data. *)
Theorem New_total (g : genesis.Genesis) (order : list (string * Z))
  (db : Database T) :
  ranges (genesis.Balances g) order ->
  New ToAccountID g order = inl db ->
  total (accounts db) = supply g.
Proof.
  unfold ranges, New. intros Ho.
  destruct (seed ToAccountID order ∅) as [accts [err |]] eqn:Hseed;
    [discriminate |].
  intros [= <-]. simpl.
  rewrite (seed_total order) with (accts := ∅) (m := accts).
  - rewrite total_empty. unfold supply. rewrite map_fold_foldr.
    rewrite (foldr_balances_Permutation _ _ Ho).
    rewrite Z.add_0_l. clear Ho.
    induction (map_to_list (genesis.Balances g)) as [| [s bal] l IH];
      simpl; [reflexivity | now rewrite IH].
  - rewrite Ho. apply NoDup_fst_map_to_list.
  - intros. apply lookup_empty.
  - exact Hseed.
Qed.

Hypothesis sortByAccount_sorts : sort.sorts Less sortByAccount.

(** X17: two ledgers that [New] builds from the same genesis data, over any
    two orders of the range, have one and the same state hash, whatever the
    order of the range inside [HashState] and the sorting algorithm. *)
Theorem HashState_same_genesis (g : genesis.Genesis)
  (order order' : list (string * Z)) (db db' : Database T) (h h' : string) :
  ranges (genesis.Balances g) order -> ranges (genesis.Balances g) order' ->
  New ToAccountID g order = inl db ->
  New ToAccountID g order' = inl db' ->
  HashState_returns sortByAccount db h ->
  HashState_returns sortByAccount db' h' ->
  h = h'.
Proof.
  apply (HashState_genesis ToAccountID sortByAccount ToAccountID_inj
           sortByAccount_sorts).
Qed.

End genesis_contents.

(** ** The ledger: removal and mining rewards *)

Section ledger_operations.

Import account database.
Context {T : Type}.

Implicit Types (db : Database T) (b : block.Block T) (tx : transaction.BlockTx).

Lemma total_delete (m : gmap string Account) (id : string) :
  total (delete id m) = total m - balanceOf m id.
Proof.
  unfold balanceOf. destruct (m !! id) as [a |] eqn:Hid; simpl.
  - rewrite <- (insert_delete_id m id a Hid) at 2.
    rewrite total_insert_fresh by apply lookup_delete_eq. lia.
  - rewrite delete_id by assumption. lia.
Qed.

(** X18: after [Remove] the account is unknown to [Query], the other
    accounts answer as before, and the balance of the removed account is
    gone from the total of the ledger. *)
Theorem Remove_forgets db (id : string) :
  Query (Remove db id) id = (account.zero, Some ErrNotExists) /\
  (forall id', id' <> id -> Query (Remove db id) id' = Query db id') /\
  total (accounts (Remove db id)) = total (accounts db) - balanceOf (accounts db) id.
Proof.
  unfold Query, Remove. simpl. repeat apply conj.
  - now rewrite lookup_delete_eq.
  - intros id' Hne. now rewrite lookup_delete_ne.
  - apply total_delete.
Qed.

(** X19: [ApplyMiningReward] adds the reward to the beneficiary's balance in
    unsigned 64-bit arithmetic and touches nothing else; there is no overflow
    check, a sum beyond the range wraps around and the total of the ledger
    drops by 2^64 less the reward. *)
Theorem ApplyMiningReward_credit db b :
  let m := accounts db in
  let m' := accounts (ApplyMiningReward db b) in
  let id := block.BeneficiaryID (block.Header b) in
  let reward := block.MiningReward (block.Header b) in
  wf_ledger m -> is_u64 reward ->
  nonceOf m' id = nonceOf m id /\
  (forall id', id' <> id -> m' !! id' = m !! id') /\
  (balanceOf m id + reward < 2 ^ 64 ->
   balanceOf m' id = balanceOf m id + reward /\
   total m' = total m + reward) /\
  (2 ^ 64 <= balanceOf m id + reward ->
   balanceOf m' id = balanceOf m id + reward - 2 ^ 64 /\
   total m' = total m + reward - 2 ^ 64).
Proof.
  cbv zeta. intros Hwf Hr. unfold ApplyMiningReward. cbn [accounts].
  pose proof (balanceOf_u64 _ (block.BeneficiaryID (block.Header b)) Hwf) as Hb.
  assert (Balance (default account.zero
            (accounts db !! block.BeneficiaryID (block.Header b)))
          = balanceOf (accounts db) (block.BeneficiaryID (block.Header b)))
    as Hbal by (unfold balanceOf; destruct (_ !! _); reflexivity).
  assert (Nonce (default account.zero
            (accounts db !! block.BeneficiaryID (block.Header b)))
          = nonceOf (accounts db) (block.BeneficiaryID (block.Header b)))
    as Hnon by (unfold nonceOf; destruct (_ !! _); reflexivity).
  rewrite total_insert, balanceOf_insert, nonceOf_insert.
  destruct (decide _); [| congruence].
  cbn [Balance Nonce withBalance]. rewrite Hbal, Hnon.
  unfold add64, wrap64, is_u64 in *.
  repeat apply conj.
  - reflexivity.
  - intros id' Hne. now rewrite lookup_insert_ne.
  - intros Hlt. rewrite Z.mod_small by lia. lia.
  - intros Hge.
    replace ((balanceOf (accounts db) (block.BeneficiaryID (block.Header b))
              + block.MiningReward (block.Header b)) mod 2 ^ 64)
      with (balanceOf (accounts db) (block.BeneficiaryID (block.Header b))
            + block.MiningReward (block.Header b) - 2 ^ 64).
    + lia.
    + apply Z.mod_unique with (q := 1); lia.
Qed.

(** X20: on a ledger whose accounts are stored under their own identifiers,
    [ApplyMiningReward] keeps that property exactly when the beneficiary has
    an account already or has the empty identifier; a beneficiary without an
    account is stored under the zero account's empty identifier. *)
Theorem ApplyMiningReward_keyed db b :
  let id := block.BeneficiaryID (block.Header b) in
  keyed (accounts db) ->
  (keyed (accounts (ApplyMiningReward db b)) <->
   is_Some (accounts db !! id) \/ id = "").
Proof.
  cbv zeta. intros Hk. unfold ApplyMiningReward. cbn [accounts].
  split.
  - intros Hk'.
    destruct (accounts db !! block.BeneficiaryID (block.Header b))
      as [a |] eqn:Hid; [left; eauto | right].
    specialize (Hk' _ _ (lookup_insert_eq _ _ _)).
    simpl in Hk'. congruence.
  - intros Hcase. apply keyed_insert; [exact Hk |]. simpl.
    destruct Hcase as [[a Ha] | Hempty].
    + rewrite Ha. simpl. exact (Hk _ _ Ha).
    + destruct (accounts db !! _) as [a |] eqn:Ha; simpl;
        [exact (Hk _ _ Ha) | now rewrite Hempty].
Qed.

End ledger_operations.

(** ** The ledger: what a transaction needs and leaves *)

Section apply_transaction_extras.

Import account database.
Context {T : Type}.

Implicit Types (db : Database T) (b : block.Block T) (tx : transaction.BlockTx).

(** X21: a call that succeeds found the nonce after the sender's, charged
    the gas fee in full (the fee was not clamped) and left the sender, after
    the fee, with a balance above zero that covers value and tip. *)
Theorem ApplyTransaction_success_funds db b tx :
  let m := accounts db in
  let fromID := transaction.FromID tx in
  let gas := mul64 (transaction.GasPrice tx) (transaction.GasUnits tx) in
  wf_ledger m -> wf_tx tx ->
  transaction.Value tx + transaction.Tip tx < 2 ^ 64 ->
  snd (ApplyTransaction db b tx) = None ->
  transaction.Nonce tx = add64 (nonceOf m fromID) 1 /\
  clampedGasFee m tx = gas /\
  gas < balanceOf m fromID /\
  gas + transaction.Value tx + transaction.Tip tx <= balanceOf m fromID.
Proof.
  cbv zeta. intros Hwf (_ & Hv & Ht & _) Hsum.
  pose proof (clampedGasFee_range _ tx Hwf) as Hrange.
  pose proof (balanceOf_u64 _ (transaction.FromID tx) Hwf) as Hfrom.
  rewrite ApplyTransaction_exits. cbv zeta.
  destruct (Z.eqb_spec (transaction.Nonce tx)
              (add64 (nonceOf (accounts db) (transaction.FromID tx)) 1))
    as [Hnonce | Hnonce]; simpl negb; cbv iota; [| discriminate].
  destruct (_ || _) eqn:Hfunds; simpl; [discriminate |]. intros _.
  apply orb_false_iff in Hfunds as [Hz%Z.eqb_neq Hlt%Z.ltb_ge].
  revert Hz Hlt. unfold add64, sub64, wrap64, is_u64 in *.
  rewrite !Z.mod_small by lia. intros Hz Hlt.
  assert (clampedGasFee (accounts db) tx
          = mul64 (transaction.GasPrice tx) (transaction.GasUnits tx)) as Hfee
    by (unfold clampedGasFee in *; lia).
  rewrite <- Hfee. repeat apply conj; (reflexivity || assumption || lia).
Qed.

(** X22: a sender without balance cannot transact: the call fails, no
    balance and no nonce changes, and yet the ledger holds an account for the
    sender and one for the beneficiary afterwards. *)
Theorem ApplyTransaction_empty_sender db b tx :
  let m := accounts db in
  let m' := accounts (fst (ApplyTransaction db b tx)) in
  wf_ledger m ->
  balanceOf m (transaction.FromID tx) = 0 ->
  snd (ApplyTransaction db b tx) <> None /\
  (forall id, balanceOf m' id = balanceOf m id /\ nonceOf m' id = nonceOf m id) /\
  is_Some (m' !! transaction.FromID tx) /\
  is_Some (m' !! block.BeneficiaryID (block.Header b)).
Proof.
  cbv zeta. intros Hwf Hzero.
  pose proof (clampedGasFee_range _ tx Hwf) as Hrange.
  assert (clampedGasFee (accounts db) tx = 0) as Hfee by lia.
  pose proof (balanceOf_u64 _ (block.BeneficiaryID (block.Header b)) Hwf) as Hb.
  rewrite ApplyTransaction_exits. cbv zeta. rewrite Hfee, Hzero.
  change (sub64 0 0) with 0. simpl orb.
  assert (forall id,
            balanceOf (afterGas db b tx) id = balanceOf (accounts db) id /\
            nonceOf (afterGas db b tx) id = nonceOf (accounts db) id) as Hsame.
  { intros id. unfold afterGas. cbv zeta. rewrite Hfee.
    rewrite !balanceOf_insert, !nonceOf_insert.
    cbn [Balance Nonce withBalance]. rewrite !Balance_default, !Nonce_default.
    rewrite Hzero. change (sub64 0 0) with 0.
    assert (add64 (balanceOf (accounts db)
              (block.BeneficiaryID (block.Header b))) 0
            = balanceOf (accounts db) (block.BeneficiaryID (block.Header b)))
      as -> by (unfold add64, wrap64, is_u64 in *;
                rewrite Z.add_0_r, Z.mod_small; lia).
    repeat destruct (decide _); subst; auto. }
  assert (is_Some (afterGas db b tx !! transaction.FromID tx) /\
          is_Some (afterGas db b tx !! block.BeneficiaryID (block.Header b)))
    as Hdom.
  { unfold afterGas. cbv zeta. split.
    - rewrite lookup_insert. destruct (decide _); [eauto |].
      rewrite lookup_insert_eq. eauto.
    - rewrite lookup_insert_eq. eauto. }
  destruct (negb _); simpl; (split; [discriminate | split; [exact Hsame | exact Hdom]]).
Qed.

(** X23: a transaction that succeeded is refused for its nonce when it is
    applied again, in the same or any other block, provided its sender is
    neither its receiver nor the beneficiary of the block that included
    it. *)
Theorem ApplyTransaction_replay_rejected db b b' tx :
  let db1 := fst (ApplyTransaction db b tx) in
  is_u64 (transaction.Nonce tx) ->
  transaction.FromID tx <> transaction.ToID tx ->
  transaction.FromID tx <> block.BeneficiaryID (block.Header b) ->
  snd (ApplyTransaction db b tx) = None ->
  snd (ApplyTransaction db1 b' tx) =
  Some (ErrNonce (transaction.Nonce tx) (add64 (transaction.Nonce tx) 1)).
Proof.
  cbv zeta. intros Hn Hto Hbn Hok.
  assert (nonceOf (accounts (fst (ApplyTransaction db b tx)))
            (transaction.FromID tx) = transaction.Nonce tx) as Hnonce.
  { revert Hok. rewrite ApplyTransaction_exits. cbv zeta.
    destruct (negb _); [discriminate |].
    destruct (_ || _); [discriminate |]. intros _. simpl.
    unfold afterTransfer. cbv zeta.
    rewrite !nonceOf_insert.
    repeat destruct (decide _); try congruence. reflexivity. }
  rewrite (ApplyTransaction_exits (fst (ApplyTransaction db b tx)) b' tx).
  cbv zeta. rewrite Hnonce.
  destruct (Z.eqb_spec (transaction.Nonce tx) (add64 (transaction.Nonce tx) 1))
    as [Heq | Hne]; [| reflexivity].
  exfalso. revert Heq. unfold add64, wrap64, is_u64 in *.
  destruct (Z.eq_dec (transaction.Nonce tx) (2 ^ 64 - 1)) as [-> | Hmax].
  - vm_compute. discriminate.
  - rewrite Z.mod_small by lia. lia.
Qed.

End apply_transaction_extras.

Section ledger_witnesses.

Import account database example.

#[local] Existing Instance accountsHash.

Lemma ranges_genesis2 :
  ranges (genesis.Balances genesis2) [("A", 100); ("B", 50)].
Proof.
  unfold ranges.
  replace (map_to_list (genesis.Balances genesis2))
    with [("A", 100); ("B", 50)] by (vm_compute; reflexivity).
  reflexivity.
Qed.

Lemma ranges_genesis2_swap :
  ranges (genesis.Balances genesis2) [("B", 50); ("A", 100)].
Proof.
  unfold ranges.
  replace (map_to_list (genesis.Balances genesis2))
    with [("A", 100); ("B", 50)] by (vm_compute; reflexivity).
  apply Permutation_swap.
Qed.

Lemma ranges_genesisBad :
  ranges (genesis.Balances genesisBad) [("A", 100); ("", 5)].
Proof.
  unfold ranges.
  replace (map_to_list (genesis.Balances genesisBad))
    with [("A", 100); ("", 5)] by (vm_compute; reflexivity).
  reflexivity.
Qed.

Lemma anyAccountID_inj (s1 s2 id : string) :
  anyAccountID s1 = inl id -> anyAccountID s2 = inl id -> s1 = s2.
Proof. intros [= <-] [= <-]. reflexivity. Qed.

Lemma New_genesis2 :
  New anyAccountID genesis2 [("A", 100); ("B", 50)] = inl db2.
Proof. vm_compute. reflexivity. Qed.

Lemma New_genesis2_swap :
  New anyAccountID genesis2 [("B", 50); ("A", 100)] = inl db2.
Proof. vm_compute. reflexivity. Qed.

Lemma keyed_db1 : keyed (accounts db1).
Proof.
  intros id a Hid. unfold db1 in Hid. cbn [accounts] in Hid.
  apply lookup_singleton_Some in Hid as [<- <-]. reflexivity.
Qed.

Lemma New_fails_iff_witness :
  (exists e,
     New (T := list transaction.BlockTx) nonemptyAccountID genesisBad
         [("A", 100); ("", 5)] = inr e) <->
  exists s bal msg,
    genesis.Balances genesisBad !! s = Some bal /\
    nonemptyAccountID s = inr msg.
Proof.
  apply (New_fails_iff nonemptyAccountID genesisBad [("A", 100); ("", 5)]).
  apply ranges_genesisBad.
Defined.

Lemma New_accounts_witness :
  accounts db2 !! "B" = Some (account.New "B" 50) <->
  exists s bal, genesis.Balances genesis2 !! s = Some bal /\
                anyAccountID s = inl "B" /\
                account.New "B" 50 = account.New "B" bal.
Proof.
  apply (New_accounts anyAccountID anyAccountID_inj genesis2
           [("A", 100); ("B", 50)] db2 "B" (account.New "B" 50)).
  - apply ranges_genesis2.
  - apply New_genesis2.
Defined.

Lemma New_total_witness : total (accounts db2) = supply genesis2.
Proof.
  apply (New_total anyAccountID anyAccountID_inj genesis2
           [("A", 100); ("B", 50)] db2).
  - apply ranges_genesis2.
  - apply New_genesis2.
Defined.

Lemma HashState_same_genesis_witness :
  HashState (sort.insertionSort Less) db2
    [("A", account.New "A" 100); ("B", account.New "B" 50)] =
  HashState (sort.insertionSort Less) db2
    [("B", account.New "B" 50); ("A", account.New "A" 100)].
Proof.
  assert (map_to_list (accounts db2) =
          [("A", account.New "A" 100); ("B", account.New "B" 50)]) as Hlist
    by (vm_compute; reflexivity).
  apply (HashState_same_genesis anyAccountID (sort.insertionSort Less)
           anyAccountID_inj insertionSort_Less_sorts genesis2
           [("A", 100); ("B", 50)] [("B", 50); ("A", 100)] db2 db2).
  - apply ranges_genesis2.
  - apply ranges_genesis2_swap.
  - apply New_genesis2.
  - apply New_genesis2_swap.
  - eexists. split; [| reflexivity]. unfold ranges. rewrite Hlist. reflexivity.
  - eexists. split; [| reflexivity]. unfold ranges. rewrite Hlist.
    apply Permutation_swap.
Defined.

Lemma ApplyMiningReward_credit_witness :
  nonceOf (accounts (ApplyMiningReward db1 blockA)) "A"
    = nonceOf (accounts db1) "A" /\
  (forall id', id' <> "A" ->
     accounts (ApplyMiningReward db1 blockA) !! id' = accounts db1 !! id') /\
  (balanceOf (accounts db1) "A" + 700 < 2 ^ 64 ->
   balanceOf (accounts (ApplyMiningReward db1 blockA)) "A"
     = balanceOf (accounts db1) "A" + 700 /\
   total (accounts (ApplyMiningReward db1 blockA))
     = total (accounts db1) + 700) /\
  (2 ^ 64 <= balanceOf (accounts db1) "A" + 700 ->
   balanceOf (accounts (ApplyMiningReward db1 blockA)) "A"
     = balanceOf (accounts db1) "A" + 700 - 2 ^ 64 /\
   total (accounts (ApplyMiningReward db1 blockA))
     = total (accounts db1) + 700 - 2 ^ 64).
Proof.
  apply (ApplyMiningReward_credit db1 blockA).
  - apply wf_ledger_db1.
  - unfold is_u64. simpl. lia.
Defined.

Lemma ApplyMiningReward_keyed_witness :
  keyed (accounts (ApplyMiningReward db1 blockM)) <->
  is_Some (accounts db1 !! "M") \/ "M" = "".
Proof.
  apply (ApplyMiningReward_keyed db1 blockM). apply keyed_db1.
Defined.

Lemma ApplyTransaction_success_funds_witness :
  transaction.Nonce tx1 = add64 (nonceOf (accounts db1) "A") 1 /\
  clampedGasFee (accounts db1) tx1 = mul64 1 2 /\
  mul64 1 2 < balanceOf (accounts db1) "A" /\
  mul64 1 2 + 30 + 5 <= balanceOf (accounts db1) "A".
Proof.
  apply (ApplyTransaction_success_funds db1 blockM tx1).
  - apply wf_ledger_db1.
  - apply wf_tx_tx1.
  - simpl. lia.
  - reflexivity.
Defined.

Lemma ApplyTransaction_empty_sender_witness :
  snd (ApplyTransaction db0 blockM tx1) <> None /\
  (forall id,
     balanceOf (accounts (fst (ApplyTransaction db0 blockM tx1))) id
       = balanceOf (accounts db0) id /\
     nonceOf (accounts (fst (ApplyTransaction db0 blockM tx1))) id
       = nonceOf (accounts db0) id) /\
  is_Some (accounts (fst (ApplyTransaction db0 blockM tx1)) !! "A") /\
  is_Some (accounts (fst (ApplyTransaction db0 blockM tx1)) !! "M").
Proof.
  apply (ApplyTransaction_empty_sender db0 blockM tx1).
  - intros id a Hid. unfold db0 in Hid. cbn [accounts] in Hid.
    rewrite lookup_empty in Hid. discriminate.
  - reflexivity.
Defined.

Lemma ApplyTransaction_replay_rejected_witness :
  snd (ApplyTransaction (fst (ApplyTransaction db1 blockM tx1)) blockA tx1) =
  Some (ErrNonce 1 (add64 1 1)).
Proof.
  apply (ApplyTransaction_replay_rejected db1 blockM blockA tx1).
  - unfold is_u64. simpl. lia.
  - discriminate.
  - discriminate.
  - reflexivity.
Defined.

Lemma ApplyTransaction_success_distinct_witness :
  balanceOf (accounts (fst (ApplyTransaction db1 blockM tx1))) "A" =
    sub64 (sub64 (sub64 (balanceOf (accounts db1) "A")
                        (clampedGasFee (accounts db1) tx1)) 30) 5 /\
  nonceOf (accounts (fst (ApplyTransaction db1 blockM tx1))) "A" = 1 /\
  balanceOf (accounts (fst (ApplyTransaction db1 blockM tx1))) "B" =
    add64 (balanceOf (accounts db1) "B") 30 /\
  balanceOf (accounts (fst (ApplyTransaction db1 blockM tx1))) "M" =
    add64 (add64 (balanceOf (accounts db1) "M")
                 (clampedGasFee (accounts db1) tx1)) 5 /\
  forall id, id <> "A" -> id <> "B" -> id <> "M" ->
    accounts (fst (ApplyTransaction db1 blockM tx1)) !! id = accounts db1 !! id.
Proof.
  apply (ApplyTransaction_success_distinct db1 blockM tx1).
  - unfold distinct3. simpl. repeat split; discriminate.
  - reflexivity.
Defined.

Lemma ApplyTransaction_failure_distinct_witness :
  balanceOf (accounts (fst (ApplyTransaction db1 blockM txBadNonce))) "A" =
    sub64 (balanceOf (accounts db1) "A")
          (clampedGasFee (accounts db1) txBadNonce) /\
  nonceOf (accounts (fst (ApplyTransaction db1 blockM txBadNonce))) "A" =
    nonceOf (accounts db1) "A" /\
  balanceOf (accounts (fst (ApplyTransaction db1 blockM txBadNonce))) "M" =
    add64 (balanceOf (accounts db1) "M")
          (clampedGasFee (accounts db1) txBadNonce) /\
  nonceOf (accounts (fst (ApplyTransaction db1 blockM txBadNonce))) "M" =
    nonceOf (accounts db1) "M" /\
  forall id, id <> "A" -> id <> "M" ->
    accounts (fst (ApplyTransaction db1 blockM txBadNonce)) !! id
    = accounts db1 !! id.
Proof.
  apply (ApplyTransaction_failure_distinct db1 blockM txBadNonce (ErrNonce 5 1)).
  - discriminate.
  - reflexivity.
Defined.

Lemma ApplyTransaction_keyed_witness :
  keyed (accounts db1) /\
  keyed (accounts (fst (ApplyTransaction db1 blockM tx1))).
Proof.
  split; [apply keyed_db1 |].
  apply (ApplyTransaction_keyed db1 blockM tx1). apply keyed_db1.
Defined.

End ledger_witnesses.

(** ** Mining: what the caller gets *)

Section mining_returns.

Import block proof.
Context {T : Type} `{!signature.Hasher BlockHeader}.
Context `{!merkle.Ops transaction.BlockTx T}.

(** X27: the block that [POW] returns with a nil error is the block it
    assembled from its arguments before the search, tree included; no result
    of the search reaches the caller. *)
Theorem POW_returns_assembled (fuel : nat) (w : World) (args : POWArgs T)
  (b : Block T) :
  POW fuel w args = Returns (b, None) ->
  exists tree,
    merkle.NewTree (Trans args) = inl tree /\ b = assembled w args tree.
Proof.
  unfold POW.
  destruct (merkle.NewTree (Trans args)) as [tree |]; [| discriminate].
  destruct (performPOW fuel w _) as [[e |] | |]; simpl; try discriminate.
  intros [= <-]. now exists tree.
Qed.

(** X28: when the search started from a random nonce and ended with a nil
    error, its local block passes the difficulty test (and the test did not
    panic). *)
Theorem performPOW_local_solved (fuel : nat) (w : World) (b b' : Block T)
  (n : Z) :
  random w = Some n ->
  performPOW_local fuel w b = Returns (None, b') ->
  isHashSolved (block.Difficulty (Header b)) (Hash b') = Returns true.
Proof.
  unfold performPOW_local. intros -> Hm.
  pose proof (mine_local_solved _ _ _ _ _ Hm) as Hs.
  destruct (mine_returns_candidate _ _ _ _ _ _ Hm) as [i ->].
  rewrite Difficulty_candidate in Hs. exact Hs.
Qed.

End mining_returns.

Section mining_returns_witnesses.

Import block proof example.

#[local] Existing Instance headerHash.

Lemma POW_returns_assembled_witness :
  exists tree,
    merkle.NewTree (Trans args1) = inl tree /\
    assembled world1 args1 [tx1] = assembled world1 args1 tree.
Proof.
  apply (POW_returns_assembled 3 world1 args1 (assembled world1 args1 [tx1])).
  reflexivity.
Defined.

Lemma performPOW_local_solved_witness :
  isHashSolved (block.Difficulty (Header blockM))
    (Hash (candidate (setNonce blockM (wrap64 1)) 2)) = Returns true.
Proof.
  apply (performPOW_local_solved 3 world1 blockM
           (candidate (setNonce blockM (wrap64 1)) 2) 1);
    reflexivity.
Defined.

End mining_returns_witnesses.
